(** * The cart store of the perfume storefront

    A shallow embedding of [features/cart/CartContext.tsx] (the reducer, the
    provider's actions and its two persistence effects), of
    [shared/utils/storage.ts] (the guarded wrapper around the device
    key-value store) and of the part of [shared/utils/errors.ts] those two
    files call, followed by the properties the specification states about
    them.

    Numbers.  A TypeScript [number] is an IEEE binary64 value.  Module
    [Float64] embeds the reducer, the public actions and the plus and minus
    handlers of the screens on binary64 numbers ([PrimFloat]); the properties
    that depend on the arithmetic (the values of the totals, the increment
    of [addItem], the least quantity of a line, what the minus button
    leaves) are stated there.  The first embedding keeps a quantity as a
    whole number [Z] and a price as an exact rational [Q], so that a decimal
    literal such as [129.99] denotes itself; it carries the properties in
    which numbers are only compared with 0, copied, or recomputed from the
    same lines, and the priced scenario of the specification, whose four
    totals module [Binary64] recomputes in binary64 arithmetic.

    Further on, the embedding covers the two reads of the provider, the
    handlers of the cart screen, the product screen and the product card,
    the rest of the storage wrapper ([removeItem], [clear], [multiGet]), the
    rest of the error utilities ([handleError], [tryCatch], [retry]) and the
    card number check of [shared/utils/validation.ts], each with the
    properties its code shows. *)

From Stdlib Require Import ZArith QArith List String Ascii Bool Lia.
From Stdlib Require PrimFloat.
From Stdlib Require Floats.
From stdpp Require Import base list strings gmap pretty.

Local Open Scope Z_scope.

(** ** Data model ([shared/types]) *)

Inductive Gender : Type := male | female | unisex.

Record Notes : Type := {
  top : list string;
  middle : list string;
  base : list string
}.

Record Product : Type := {
  id : string;
  name : string;
  brand : string;
  price : Q;
  image : string;
  description : string;
  size : string;
  notes : Notes;
  gender : Gender;
  rating : Q;
  inStock : bool
}.

Record CartItem : Type := {
  product : Product;
  quantity : Z
}.

(** ** Actions and state ([CartContext.tsx], lines 13-45) *)

Inductive CartAction : Type :=
  | ADD_ITEM (payload : Product)
  | REMOVE_ITEM (payload : string)
  | UPDATE_QUANTITY (productId : string) (quantity : Z)
  | CLEAR_CART
  | LOAD_CART (payload : list CartItem)
  | SET_LOADING (payload : bool).

Record CartState : Type := {
  items : list CartItem;
  totalItems : Z;
  totalPrice : Q;
  isLoading : bool
}.

Definition initialState : CartState :=
  {| items := []; totalItems := 0; totalPrice := 0%Q; isLoading := true |}.

(** ** The reducer ([CartContext.tsx], lines 51-151) *)

(** [newItems.reduce((sum, item) => sum + item.quantity, 0)] *)
Definition reduceQuantity (newItems : list CartItem) : Z :=
  fold_left (fun sum item => sum + quantity item) newItems 0.

(** [newItems.reduce((sum, item) => sum + item.product.price * item.quantity, 0)] *)
Definition reducePrice (newItems : list CartItem) : Q :=
  fold_left
    (fun sum item => (sum + price (product item) * inject_Z (quantity item))%Q)
    newItems 0%Q.

(** The object literal every mutating case returns:
    [{ ...state, items: newItems, totalItems: ..., totalPrice: ... }]. *)
Definition withItems (state : CartState) (newItems : list CartItem) : CartState :=
  {| items := newItems;
     totalItems := reduceQuantity newItems;
     totalPrice := reducePrice newItems;
     isLoading := isLoading state |}.

(** The body of [case 'REMOVE_ITEM'].  The ['UPDATE_QUANTITY'] case re-enters
    the reducer with a ['REMOVE_ITEM'] action; that single self-call is
    unfolded to this body. *)
Definition reduceRemoveItem (state : CartState) (payload : string) : CartState :=
  let newItems :=
    List.filter (fun item => negb (String.eqb (id (product item)) payload))
                (items state) in
  withItems state newItems.

Definition cartReducer (state : CartState) (action : CartAction) : CartState :=
  match action with
  | ADD_ITEM payload =>
      let existingItem :=
        List.find (fun item => String.eqb (id (product item)) (id payload))
                  (items state) in
      let newItems :=
        match existingItem with
        | Some _ =>
            List.map
              (fun item =>
                 if String.eqb (id (product item)) (id payload)
                 then {| product := product item; quantity := quantity item + 1 |}
                 else item)
              (items state)
        | None =>
            (items state ++ [ {| product := payload; quantity := 1 |} ])%list
        end in
      withItems state newItems
  | REMOVE_ITEM payload => reduceRemoveItem state payload
  | UPDATE_QUANTITY productId quantity0 =>
      if (quantity0 <=? 0)%Z
      then reduceRemoveItem state productId
      else
        let newItems :=
          List.map
            (fun item =>
               if String.eqb (id (product item)) productId
               then {| product := product item; quantity := quantity0 |}
               else item)
            (items state) in
        withItems state newItems
  | CLEAR_CART =>
      {| items := []; totalItems := 0; totalPrice := 0%Q;
         isLoading := isLoading state |}
  | LOAD_CART payload =>
      {| items := payload;
         totalItems := reduceQuantity payload;
         totalPrice := reducePrice payload;
         isLoading := false |}
  | SET_LOADING payload =>
      {| items := items state;
         totalItems := totalItems state;
         totalPrice := totalPrice state;
         isLoading := payload |}
  end.

(** ** Errors ([shared/utils/errors.ts]) *)

Inductive ErrorType : Type :=
  | NETWORK | VALIDATION | NOT_FOUND | UNAUTHORIZED
  | FORBIDDEN | SERVER | TIMEOUT | UNKNOWN.

(** The string each member of the [enum ErrorType] stands for. *)
Definition ErrorType_value (t : ErrorType) : string :=
  match t with
  | NETWORK => "NETWORK_ERROR"
  | VALIDATION => "VALIDATION_ERROR"
  | NOT_FOUND => "NOT_FOUND"
  | UNAUTHORIZED => "UNAUTHORIZED"
  | FORBIDDEN => "FORBIDDEN"
  | SERVER => "SERVER_ERROR"
  | TIMEOUT => "TIMEOUT"
  | UNKNOWN => "UNKNOWN_ERROR"
  end%string.

(** A thrown JavaScript value, kept as its message. *)
Definition JsError : Type := string.

Record AppError : Type := {
  type : ErrorType;
  message : string;
  userMessage : string;
  originalError : option JsError;
  statusCode : option Z
}.

Definition ERROR_MESSAGES (t : ErrorType) : string :=
  match t with
  | NETWORK => "Unable to connect. Please check your internet connection and try again."
  | VALIDATION => "Please check your input and try again."
  | NOT_FOUND => "The requested resource was not found."
  | UNAUTHORIZED => "You need to be logged in to perform this action."
  | FORBIDDEN => "You do not have permission to perform this action."
  | SERVER => "Something went wrong on our end. Please try again later."
  | TIMEOUT => "The request took too long. Please try again."
  | UNKNOWN => "An unexpected error occurred. Please try again."
  end%string.

(** [message || fallback] on an optional string: [undefined] and the empty
    string are both falsy. *)
Definition orElse (message0 : option string) (fallback : string) : string :=
  match message0 with
  | Some EmptyString | None => fallback
  | Some s => s
  end.

Definition createError (type0 : ErrorType) (message0 : option string)
    (originalError0 : option JsError) (statusCode0 : option Z) : AppError :=
  let userMessage0 := orElse message0 (ERROR_MESSAGES type0) in
  {| type := type0;
     message := orElse message0 (ERROR_MESSAGES type0);
     userMessage := userMessage0;
     originalError := originalError0;
     statusCode := statusCode0 |}.

(** The [context] record handed to [logError], and what reaches
    [console.error]: the structured report of a development build or the
    one-line message of a production build. *)
Inductive ContextValue : Type :=
  | CStr (s : string)
  | CNum (n : Z).

Definition Context : Type := list (string * ContextValue).

Inductive ConsoleEntry : Type :=
  | DevReport (error : AppError) (context : option Context)
  | ProdLine (line : string).

(** ** Completions and the external collaborators *)

(** How a call ends: it returns a value or it throws. *)
Inductive Completion (A : Type) : Type :=
  | Normal (a : A)
  | Thrown (e : JsError).
Arguments Normal {A} a.
Arguments Thrown {A} e.

(** [@react-native-async-storage/async-storage]: the device store, of which
    the code uses [getItem] (a string, or [null] when the key is absent) and
    [setItem].  Either promise may reject. *)
Class AsyncStorageAPI (Disk : Type) : Type := {
  AsyncStorage_getItem : string -> Disk -> Completion (option string);
  AsyncStorage_setItem : string -> string -> Disk -> Completion unit * Disk
}.

(** The built-in [JSON] object at the type [T] the caller instantiates
    [storage.getItem<T>] with.  [JSON.parse] throws on malformed text; a
    parsed [null] is [None]. *)
Class JSONCodec (T : Type) : Type := {
  JSON_stringify : T -> Completion string;
  JSON_parse : string -> Completion (option T)
}.

(** [STORAGE_KEYS] of [shared/constants/config]. *)
Module STORAGE_KEYS.
Definition CART : string := "@perfume_store/cart".
Definition USER_PREFERENCES : string := "@perfume_store/preferences".
Definition RECENT_SEARCHES : string := "@perfume_store/recent_searches".
End STORAGE_KEYS.

Section Provider.

Context {Disk : Type}.

(** Everything a call of the provider can read or change: the build flag
    [__DEV__], what was written to [console.error], the contents of the
    device store and the reducer state held by [useReducer]. *)
Record World : Type := {
  __DEV__ : bool;
  console : list ConsoleEntry;
  disk : Disk;
  state : CartState
}.

(** A computation of the provider: run in a world, it completes and leaves
    a world.  An [async] function is run to its completion. *)
Definition JS (A : Type) : Type := World -> Completion A * World.

#[local] Instance JS_ret : MRet JS := fun A a w => (Normal a, w).

#[local] Instance JS_bind : MBind JS := fun A B k c w =>
  match c w with
  | (Normal a, w') => k a w'
  | (Thrown e, w') => (Thrown e, w')
  end.

(** [try { body } catch (error) { handler }] *)
Definition tryCatch {A : Type} (body : JS A) (handler : JsError -> JS A) : JS A :=
  fun w =>
    match body w with
    | (Normal a, w') => (Normal a, w')
    | (Thrown e, w') => handler e w'
    end.

(** [logError] ([errors.ts], lines 109-126): one [console.error] call in
    either build. *)
Definition logError (error : AppError) (context : option Context) : JS unit :=
  fun w =>
    let entry :=
      if __DEV__ w
      then DevReport error context
      else ProdLine ("[" ++ ErrorType_value (type error) ++ "] " ++ message error)%string in
    (Normal tt,
     {| __DEV__ := __DEV__ w; console := (console w ++ [entry])%list;
        disk := disk w; state := state w |}).

(** ** The storage wrapper ([shared/utils/storage.ts]) *)

Section Storage.

Context `{AsyncStorageAPI Disk} {T : Type} `{JSONCodec T}.

Definition await_AsyncStorage_setItem (key jsonValue : string) : JS unit :=
  fun w =>
    let '(c, d) := AsyncStorage_setItem key jsonValue (disk w) in
    (c, {| __DEV__ := __DEV__ w; console := console w;
           disk := d; state := state w |}).

Definition await_AsyncStorage_getItem (key : string) : JS (option string) :=
  fun w => (AsyncStorage_getItem key (disk w), w).

Definition lift {A : Type} (c : Completion A) : JS A := fun w => (c, w).

(** [storage.setItem] (lines 13-25) *)
Definition storage_setItem (key : string) (value : T) : JS bool :=
  tryCatch
    (jsonValue ← lift (JSON_stringify value);
     await_AsyncStorage_setItem key jsonValue;;
     mret true)
    (fun error =>
       logError
         (createError UNKNOWN (Some "Failed to save to storage"%string)
                      (Some error) None)
         (Some [("key", CStr key); ("operation", CStr "setItem")]%string);;
       mret false).

(** [storage.getItem] (lines 30-41) *)
Definition storage_getItem (key : string) : JS (option T) :=
  tryCatch
    (jsonValue ← await_AsyncStorage_getItem key;
     match jsonValue with
     | Some text => lift (JSON_parse text)
     | None => mret None
     end)
    (fun error =>
       logError
         (createError UNKNOWN (Some "Failed to read from storage"%string)
                      (Some error) None)
         (Some [("key", CStr key); ("operation", CStr "getItem")]%string);;
       mret None).

End Storage.

(** ** The provider ([CartContext.tsx], lines 158-219) *)

(** [dispatch] of [useReducer(cartReducer, initialState)]. *)
Definition dispatch (action : CartAction) : JS unit :=
  fun w =>
    (Normal tt,
     {| __DEV__ := __DEV__ w; console := console w; disk := disk w;
        state := cartReducer (state w) action |}).

Definition addItem (product0 : Product) : JS unit :=
  if negb (inStock product0)
  then
    logError
      (createError VALIDATION (Some "Cannot add out-of-stock item"%string) None None)
      (Some [("product", CStr (id product0))]%string)
  else dispatch (ADD_ITEM product0).

Definition removeItem (productId : string) : JS unit :=
  dispatch (REMOVE_ITEM productId).

Definition updateQuantity (productId : string) (quantity0 : Z) : JS unit :=
  if (quantity0 <? 0)%Z
  then
    logError
      (createError VALIDATION (Some "Quantity cannot be negative"%string) None None)
      (Some [("productId", CStr productId); ("quantity", CNum quantity0)]%string)
  else dispatch (UPDATE_QUANTITY productId quantity0).

Definition clearCart : JS unit :=
  dispatch CLEAR_CART.

Section Effects.

Context `{AsyncStorageAPI Disk} `{JSONCodec (list CartItem)}.

(** The mount effect (lines 162-181). *)
Definition loadCart : JS unit :=
  tryCatch
    (savedCart ← storage_getItem STORAGE_KEYS.CART;
     match savedCart with
     | Some payload => dispatch (LOAD_CART payload)
     | None => dispatch (SET_LOADING false)
     end)
    (fun error =>
       logError
         (createError UNKNOWN (Some "Failed to load cart"%string) (Some error) None)
         (Some [("operation", CStr "loadCart")]%string);;
       dispatch (SET_LOADING false)).

(** The save effect (lines 184-188); the promise of [storage.setItem]
    is dropped. *)
Definition saveCart : JS unit :=
  fun w =>
    if negb (isLoading (state w))
    then (_ ← storage_setItem STORAGE_KEYS.CART (items (state w)); mret tt) w
    else (Normal tt, w).

End Effects.

End Provider.

Arguments World Disk : clear implicits.
Arguments JS Disk A : clear implicits.

(** ** Sequences of calls of the public actions *)

Inductive Call : Type :=
  | CallAddItem (product0 : Product)
  | CallRemoveItem (productId : string)
  | CallUpdateQuantity (productId : string) (quantity0 : Z)
  | CallClearCart.

Definition perform {Disk : Type} (c : Call) : JS Disk unit :=
  match c with
  | CallAddItem product0 => addItem product0
  | CallRemoveItem productId => removeItem productId
  | CallUpdateQuantity productId quantity0 => updateQuantity productId quantity0
  | CallClearCart => clearCart
  end.

(** The world a computation leaves. *)
Definition after {Disk A : Type} (c : JS Disk A) (w : World Disk) : World Disk :=
  snd (c w).

(** A store that has just been created, before its mount effect ran. *)
Definition freshWorld {Disk : Type} (dev : bool) (d : Disk) : World Disk :=
  {| __DEV__ := dev; console := []; disk := d; state := initialState |}.

(** ** The quantities the specification speaks of *)

(** The product identifiers of the lines, in order. *)
Definition lineIds (lines : list CartItem) : list string :=
  List.map (fun line => id (product line)) lines.

(** Every line has quantity at least 1 and no product identifier occurs
    twice. *)
Definition WellFormed (lines : list CartItem) : Prop :=
  Forall (fun line => 1 <= quantity line) lines /\ NoDup (lineIds lines).

(** ** Catalogue entries ([data/products.ts]) used in the examples *)

Module products.

Definition product_1 : Product :=
  {| id := "1";
     name := "Noir Essence";
     brand := "Luxe Parfums";
     price := (12999 # 100)%Q;
     image := "https://images.unsplash.com/photo-1541643600914-78b084683601?w=400&h=600&fit=crop";
     description := "A sophisticated blend of dark woods and subtle spices, perfect for evening wear.";
     size := "100ml";
     notes := {| top := ["Bergamot"; "Black Pepper"; "Cardamom"];
                 middle := ["Lavender"; "Iris"; "Geranium"];
                 base := ["Cedarwood"; "Vetiver"; "Amber"] |};
     gender := male;
     rating := (48 # 10)%Q;
     inStock := true |}%string.

Definition product_3 : Product :=
  {| id := "3";
     name := "Azure Coast";
     brand := "Coastal Scents";
     price := (9999 # 100)%Q;
     image := "https://images.unsplash.com/photo-1588405748880-12d1d2a59c75?w=400&h=600&fit=crop";
     description := "Fresh and invigorating, capturing the essence of Mediterranean coastlines.";
     size := "100ml";
     notes := {| top := ["Sea Salt"; "Grapefruit"; "Mint"];
                 middle := ["Aquatic Notes"; "Sage"; "Rosemary"];
                 base := ["Driftwood"; "Amber"; "Musk"] |};
     gender := unisex;
     rating := (46 # 10)%Q;
     inStock := true |}%string.

Definition product_8 : Product :=
  {| id := "8";
     name := "White Tea Blossom";
     brand := "Zen Garden";
     price := (8999 # 100)%Q;
     image := "https://images.unsplash.com/photo-1528821154947-1aa3d1b74941?w=400&h=600&fit=crop";
     description := "Delicate and serene, a calming blend of white tea and soft florals.";
     size := "75ml";
     notes := {| top := ["White Tea"; "Mandarin"; "Ginger"];
                 middle := ["Cherry Blossom"; "Freesia"; "White Rose"];
                 base := ["Musk"; "Cedarwood"; "Amber"] |};
     gender := female;
     rating := (48 # 10)%Q;
     inStock := false |}%string.

End products.

(** ** What a console entry reports *)

(** The entry reports an error of type [t]: the report of a development
    build carries the error, the line of a production build starts with the
    bracketed value of [t]. *)
Definition reports (t : ErrorType) (entry : ConsoleEntry) : Prop :=
  match entry with
  | DevReport error _ => type error = t
  | ProdLine line =>
      String.prefix ("[" ++ ErrorType_value t ++ "]")%string line = true
  end.

(** ** The reducer's sums on IEEE binary64 numbers *)

(** In the running program every [number] is a binary64 value.  A line is
    kept here as its price and its quantity, and the two [reduce] calls of
    the reducer are run on them with binary64 addition and multiplication. *)
Module Binary64.

Import PrimFloat.

Definition reduceQuantity (newItems : list (float * float)) : float :=
  fold_left (fun sum item => (sum + snd item)%float) newItems 0%float.

Definition reducePrice (newItems : list (float * float)) : float :=
  fold_left (fun sum item => (sum + fst item * snd item)%float) newItems 0%float.

End Binary64.

(** ** An executable device

    One instance of the two collaborators, to run the persistence code on:
    JSON text for the values and the syntax that cart lines need (no
    white space, no exponents, escapes for the quote and the backslash only)
    and a device store held in memory. *)

Module JSON.

#[warnings="-register-all"]
Inductive value : Type :=
  | Null
  | Bool (b : bool)
  | Number (mantissa : Z) (scale : nat)
  | Str (s : string)
  | Array (elements : list value)
  | Object (members : list (string * value)).

Definition quote : ascii := "034"%char.
Definition backslash : ascii := "\"%char.

(** *** Printing *)

Fixpoint escape (s : string) : string :=
  match s with
  | EmptyString => EmptyString
  | String c rest =>
      if (Ascii.eqb c quote || Ascii.eqb c backslash)%bool
      then String backslash (String c (escape rest))
      else String c (escape rest)
  end.

Definition printString (s : string) : string :=
  String quote (escape s ++ String quote EmptyString).

Fixpoint zeros (n : nat) : string :=
  match n with
  | O => EmptyString
  | S n' => String "0" (zeros n')
  end.

(** [mantissa / 10 ^ scale] in decimal notation. *)
Definition printNumber (mantissa : Z) (scale : nat) : string :=
  let digits := pretty (Z.abs mantissa) in
  let padded := (zeros (S scale - String.length digits)%nat ++ digits)%string in
  let whole := (String.length padded - scale)%nat in
  let sign := if mantissa <? 0 then "-"%string else EmptyString in
  match scale with
  | O => (sign ++ padded)%string
  | S _ =>
      (sign ++ String.substring 0 whole padded ++ "."
            ++ String.substring whole scale padded)%string
  end.

Fixpoint print (v : value) : string :=
  match v with
  | Null => "null"
  | Bool true => "true"
  | Bool false => "false"
  | Number mantissa scale => printNumber mantissa scale
  | Str s => printString s
  | Array elements =>
      "[" ++
      (fix printElements (vs : list value) : string :=
         match vs with
         | [] => EmptyString
         | [v'] => print v'
         | v' :: vs' => print v' ++ "," ++ printElements vs'
         end) elements
      ++ "]"
  | Object members =>
      "{" ++
      (fix printMembers (ms : list (string * value)) : string :=
         match ms with
         | [] => EmptyString
         | [(k, v')] => printString k ++ ":" ++ print v'
         | (k, v') :: ms' => printString k ++ ":" ++ print v' ++ "," ++ printMembers ms'
         end) members
      ++ "}"
  end%string.

(** *** Parsing *)

Definition digitOf (c : ascii) : option Z :=
  let n := Z.of_N (N_of_ascii c) in
  if ((48 <=? n) && (n <=? 57))%bool then Some (n - 48) else None.

Fixpoint takeDigits (s : string) : list Z * string :=
  match s with
  | EmptyString => ([], s)
  | String c rest =>
      match digitOf c with
      | Some digit => let '(digits, rest') := takeDigits rest in (digit :: digits, rest')
      | None => ([], s)
      end
  end.

Definition digitsValue (digits : list Z) : Z :=
  fold_left (fun acc digit => 10 * acc + digit) digits 0.

Definition parseNumber (s : string) : option (value * string) :=
  let '(negative, s1) :=
    match s with
    | String "-" rest => (true, rest)
    | _ => (false, s)
    end in
  let '(whole, s2) := takeDigits s1 in
  match whole with
  | [] => None
  | _ :: _ =>
      let '(fraction, s3) :=
        match s2 with
        | String "." rest => takeDigits rest
        | _ => ([], s2)
        end in
      let magnitude := digitsValue (whole ++ fraction) in
      Some (Number (if negative : bool then - magnitude else magnitude)
                   (length fraction), s3)
  end.

(** The characters of a string literal after its opening quote, and what
    follows the closing quote. *)
Fixpoint parseChars (s : string) : option (string * string) :=
  match s with
  | EmptyString => None
  | String c rest =>
      if Ascii.eqb c quote then Some (EmptyString, rest)
      else if Ascii.eqb c backslash then
        match rest with
        | String escaped rest' =>
            match parseChars rest' with
            | Some (body, after) => Some (String escaped body, after)
            | None => None
            end
        | EmptyString => None
        end
      else
        match parseChars rest with
        | Some (body, after) => Some (String c body, after)
        | None => None
        end
  end.

Fixpoint parseValue (fuel : nat) (s : string) : option (value * string) :=
  match fuel with
  | O => None
  | S fuel' =>
      match s with
      | String "n" (String "u" (String "l" (String "l" rest))) => Some (Null, rest)
      | String "t" (String "r" (String "u" (String "e" rest))) => Some (Bool true, rest)
      | String "f" (String "a" (String "l" (String "s" (String "e" rest)))) =>
          Some (Bool false, rest)
      | String "[" (String "]" rest) => Some (Array [], rest)
      | String "[" rest =>
          match parseElements fuel' rest with
          | Some (elements, rest') => Some (Array elements, rest')
          | None => None
          end
      | String "{" (String "}" rest) => Some (Object [], rest)
      | String "{" rest =>
          match parseMembers fuel' rest with
          | Some (members, rest') => Some (Object members, rest')
          | None => None
          end
      | String c rest =>
          if Ascii.eqb c quote
          then match parseChars rest with
               | Some (body, rest') => Some (Str body, rest')
               | None => None
               end
          else parseNumber s
      | EmptyString => None
      end
  end
with parseElements (fuel : nat) (s : string) : option (list value * string) :=
  match fuel with
  | O => None
  | S fuel' =>
      match parseValue fuel' s with
      | Some (v, String "," rest) =>
          match parseElements fuel' rest with
          | Some (vs, rest') => Some (v :: vs, rest')
          | None => None
          end
      | Some (v, String "]" rest) => Some ([v], rest)
      | _ => None
      end
  end
with parseMembers (fuel : nat) (s : string) : option (list (string * value) * string) :=
  match fuel with
  | O => None
  | S fuel' =>
      match s with
      | String c rest =>
          if Ascii.eqb c quote
          then
            match parseChars rest with
            | Some (key, String ":" rest') =>
                match parseValue fuel' rest' with
                | Some (v, String "," rest'') =>
                    match parseMembers fuel' rest'' with
                    | Some (ms, rest''') => Some ((key, v) :: ms, rest''')
                    | None => None
                    end
                | Some (v, String "}" rest'') => Some ([(key, v)], rest'')
                | _ => None
                end
            | _ => None
            end
          else None
      | EmptyString => None
      end
  end.

Definition parse (text : string) : option value :=
  match parseValue (2 * String.length text + 2) text with
  | Some (v, EmptyString) => Some v
  | _ => None
  end.

End JSON.


Module Device.

Definition field (key : string) (v : JSON.value) : option JSON.value :=
  match v with
  | JSON.Object members =>
      snd <$> List.find (fun member => String.eqb (fst member) key) members
  | _ => None
  end.

Definition asString (v : JSON.value) : option string :=
  match v with JSON.Str s => Some s | _ => None end.

Definition asBool (v : JSON.value) : option bool :=
  match v with JSON.Bool b => Some b | _ => None end.

Definition asStrings (v : JSON.value) : option (list string) :=
  match v with JSON.Array elements => mapM asString elements | _ => None end.

(** A quantity is a whole number. *)
Definition asZ (v : JSON.value) : option Z :=
  match v with JSON.Number mantissa O => Some mantissa | _ => None end.

Definition asQ (v : JSON.value) : option Q :=
  match v with
  | JSON.Number mantissa scale => Some (mantissa # Z.to_pos (10 ^ Z.of_nat scale))
  | _ => None
  end.

Definition asGender (v : JSON.value) : option Gender :=
  match v with
  | JSON.Str "male" => Some male
  | JSON.Str "female" => Some female
  | JSON.Str "unisex" => Some unisex
  | _ => None
  end.

(** The number of decimal places of a fraction whose denominator is a power
    of ten. *)
Fixpoint decimalScale (fuel : nat) (denominator : Z) : option nat :=
  if denominator =? 1 then Some O
  else
    match fuel with
    | O => None
    | S fuel' =>
        if denominator mod 10 =? 0
        then S <$> decimalScale fuel' (denominator / 10)
        else None
    end.

Definition ofQ (q : Q) : option JSON.value :=
  JSON.Number (Qnum q) <$> decimalScale (Pos.size_nat (Qden q)) (Zpos (Qden q)).

Definition ofStrings (l : list string) : JSON.value :=
  JSON.Array (List.map JSON.Str l).

Definition ofGender (g : Gender) : JSON.value :=
  match g with
  | male => JSON.Str "male"
  | female => JSON.Str "female"
  | unisex => JSON.Str "unisex"
  end.

Definition ofNotes (n : Notes) : JSON.value :=
  JSON.Object [("top", ofStrings (top n)); ("middle", ofStrings (middle n));
               ("base", ofStrings (base n))]%string.

Definition ofProduct (p : Product) : option JSON.value :=
  price0 ← ofQ (price p);
  rating0 ← ofQ (rating p);
  Some (JSON.Object
          [("id", JSON.Str (id p)); ("name", JSON.Str (name p));
           ("brand", JSON.Str (brand p)); ("price", price0);
           ("image", JSON.Str (image p));
           ("description", JSON.Str (description p));
           ("size", JSON.Str (size p)); ("notes", ofNotes (notes p));
           ("gender", ofGender (gender p)); ("rating", rating0);
           ("inStock", JSON.Bool (inStock p))]%string).

Definition ofCartItem (item : CartItem) : option JSON.value :=
  product0 ← ofProduct (product item);
  Some (JSON.Object [("product", product0);
                     ("quantity", JSON.Number (quantity item) O)]%string).

Definition ofCartItems (lines : list CartItem) : option JSON.value :=
  JSON.Array <$> mapM ofCartItem lines.

Definition toNotes (v : JSON.value) : option Notes :=
  top0 ← field "top" v ≫= asStrings;
  middle0 ← field "middle" v ≫= asStrings;
  base0 ← field "base" v ≫= asStrings;
  Some {| top := top0; middle := middle0; base := base0 |}.

Definition toProduct (v : JSON.value) : option Product :=
  id0 ← field "id" v ≫= asString;
  name0 ← field "name" v ≫= asString;
  brand0 ← field "brand" v ≫= asString;
  price0 ← field "price" v ≫= asQ;
  image0 ← field "image" v ≫= asString;
  description0 ← field "description" v ≫= asString;
  size0 ← field "size" v ≫= asString;
  notes0 ← field "notes" v ≫= toNotes;
  gender0 ← field "gender" v ≫= asGender;
  rating0 ← field "rating" v ≫= asQ;
  inStock0 ← field "inStock" v ≫= asBool;
  Some {| id := id0; name := name0; brand := brand0; price := price0;
          image := image0; description := description0; size := size0;
          notes := notes0; gender := gender0; rating := rating0;
          inStock := inStock0 |}.

Definition toCartItem (v : JSON.value) : option CartItem :=
  product0 ← field "product" v ≫= toProduct;
  quantity0 ← field "quantity" v ≫= asZ;
  Some {| product := product0; quantity := quantity0 |}.

Definition toCartItems (v : JSON.value) : option (list CartItem) :=
  match v with
  | JSON.Array elements => mapM toCartItem elements
  | _ => None
  end.

(** [JSON.stringify] and [JSON.parse] at the type [CartItem[]].  A number
    that is not a decimal fraction has no rendering here, and text that does
    not denote lines or [null] is not a value of the type: both end in a
    throw. *)
#[export] Instance JSON_lines : JSONCodec (list CartItem) := {|
  JSON_stringify lines :=
    match ofCartItems lines with
    | Some v => Normal (JSON.print v)
    | None => Thrown "TypeError: a number is not a decimal fraction"
    end;
  JSON_parse text :=
    match JSON.parse text with
    | None => Thrown "SyntaxError: JSON Parse error"
    | Some JSON.Null => Normal None
    | Some v =>
        match toCartItems v with
        | Some lines => Normal (Some lines)
        | None => Thrown "TypeError: not an array of cart items"
        end
    end
|}.

(** A device store in memory that never rejects. *)
#[export] Instance memory : AsyncStorageAPI (gmap string string) := {|
  AsyncStorage_getItem key d := Normal (d !! key);
  AsyncStorage_setItem key jsonValue d := (Normal tt, <[key := jsonValue]> d)
|}.

End Device.

(** The contract of the device store that hydration relies on: a key reads
    back the text last written under it. *)
Class AsyncStorageLaws (Disk : Type) `{AsyncStorageAPI Disk} : Prop := {
  getItem_after_setItem (key jsonValue : string) (d d' : Disk) :
    AsyncStorage_setItem key jsonValue d = (Normal tt, d') ->
    AsyncStorage_getItem key d' = Normal (Some jsonValue)
}.

(** ** Reads of the provider ([CartContext.tsx], lines 221-234) *)

(** [getItemQuantity]: [item?.quantity || 0] on the first line found. *)
Definition getItemQuantity (state0 : CartState) (productId : string) : Z :=
  let item :=
    List.find (fun item => String.eqb (id (product item)) productId)
              (items state0) in
  match item with
  | Some found => if quantity found =? 0 then 0 else quantity found
  | None => 0
  end.

(** [isInCart]: [state.items.some(...)]. *)
Definition isInCart (state0 : CartState) (productId : string) : bool :=
  List.existsb (fun item => String.eqb (id (product item)) productId)
               (items state0).

(** ** Handlers of the screens that drive the cart *)

(** The cart screen: each rendered line passes its own [product.id] and
    [quantity] to the handlers. *)
Module CartScreen.

Definition handleIncrement {Disk : Type} (productId : string)
    (currentQuantity : Z) : JS Disk unit :=
  updateQuantity productId (currentQuantity + 1).

Definition handleDecrement {Disk : Type} (productId : string)
    (currentQuantity : Z) : JS Disk unit :=
  if currentQuantity >? 1
  then updateQuantity productId (currentQuantity - 1)
  else fun w => (Normal tt, w).

Definition handleRemove {Disk : Type} (productId : string) : JS Disk unit :=
  removeItem productId.

End CartScreen.

(** The product screen of [product0]: [quantity] is
    [getItemQuantity(product0.id)] of the state the screen was rendered
    from. *)
Module ProductScreen.

Definition handleAddToCart {Disk : Type} (product0 : Product) : JS Disk unit :=
  if inStock product0
  then addItem product0
  else fun w => (Normal tt, w).

Definition handleIncrement {Disk : Type} (product0 : Product) : JS Disk unit :=
  fun w =>
    let quantity0 := getItemQuantity (state w) (id product0) in
    updateQuantity (id product0) (quantity0 + 1) w.

Definition handleDecrement {Disk : Type} (product0 : Product) : JS Disk unit :=
  fun w =>
    let quantity0 := getItemQuantity (state w) (id product0) in
    if quantity0 >? 1
    then updateQuantity (id product0) (quantity0 - 1) w
    else (Normal tt, w).

End ProductScreen.

(** The product card of the listing: [e.stopPropagation(); addItem(product)]. *)
Module ProductCard.

Definition handleAddToCart {Disk : Type} (product0 : Product) : JS Disk unit :=
  addItem product0.

End ProductCard.

(** ** The rest of the storage wrapper ([shared/utils/storage.ts], lines 46-95) *)

(** The other calls of the device store the wrapper uses: [removeItem],
    [clear] and [multiGet], which resolves to the pairs of each key asked
    for and its text (or [null]). *)
Class AsyncStorageMoreAPI (Disk : Type) : Type := {
  AsyncStorage_removeItem : string -> Disk -> Completion unit * Disk;
  AsyncStorage_clear : Disk -> Completion unit * Disk;
  AsyncStorage_multiGet :
    list string -> Disk -> Completion (list (string * option string))
}.

Section MoreStorage.

Context {Disk : Type} `{!AsyncStorageMoreAPI Disk} {T : Type} `{!JSONCodec T}.

#[local] Existing Instances JS_ret JS_bind.

Definition await_AsyncStorage_removeItem (key : string) : JS Disk unit :=
  fun w =>
    let '(c, d) := AsyncStorage_removeItem key (disk w) in
    (c, {| __DEV__ := __DEV__ w; console := console w;
           disk := d; state := state w |}).

Definition await_AsyncStorage_clear : JS Disk unit :=
  fun w =>
    let '(c, d) := AsyncStorage_clear (disk w) in
    (c, {| __DEV__ := __DEV__ w; console := console w;
           disk := d; state := state w |}).

Definition await_AsyncStorage_multiGet (keys : list string)
    : JS Disk (list (string * option string)) :=
  fun w => (AsyncStorage_multiGet keys (disk w), w).

(** [storage.removeItem] (lines 46-57) *)
Definition storage_removeItem (key : string) : JS Disk bool :=
  tryCatch
    (await_AsyncStorage_removeItem key;;
     mret true)
    (fun error =>
       logError
         (createError UNKNOWN (Some "Failed to remove from storage"%string)
                      (Some error) None)
         (Some [("key", CStr key); ("operation", CStr "removeItem")]%string);;
       mret false).

(** [storage.clear] (lines 62-73) *)
Definition storage_clear : JS Disk bool :=
  tryCatch
    (await_AsyncStorage_clear;;
     mret true)
    (fun error =>
       logError
         (createError UNKNOWN (Some "Failed to clear storage"%string)
                      (Some error) None)
         (Some [("operation", CStr "clear")]%string);;
       mret false).

(** The [pairs.forEach] of [multiGet]:
    [result[key] = value ? JSON.parse(value) : null], where [null] and the
    empty text are falsy.  A throw of [JSON.parse] ends the loop.  The
    record is kept as the map of its entries: the assignment creates or
    overwrites the entry of [key], for every key but [__proto__], which an
    object literal hands to the setter of its prototype; what is stated
    about entries is stated for pairs without that key. *)
Fixpoint multiGet_forEach (pairs : list (string * option string))
    (result : gmap string (option T)) : Completion (gmap string (option T)) :=
  match pairs with
  | [] => Normal result
  | (key, value) :: rest =>
      match value with
      | Some (String _ _ as text) =>
          match JSON_parse text with
          | Normal parsed => multiGet_forEach rest (<[key := parsed]> result)
          | Thrown e => Thrown e
          end
      | Some EmptyString | None => multiGet_forEach rest (<[key := None]> result)
      end
  end.

(** [storage.multiGet] (lines 78-95).  In the logged context the array
    [keys] is kept as its rendering [keys.join(',')]. *)
Definition storage_multiGet (keys : list string)
    : JS Disk (gmap string (option T)) :=
  tryCatch
    (pairs ← await_AsyncStorage_multiGet keys;
     lift (multiGet_forEach pairs ∅))
    (fun error =>
       logError
         (createError UNKNOWN (Some "Failed to read multiple items"%string)
                      (Some error) None)
         (Some [("keys", CStr (String.concat "," keys));
                ("operation", CStr "multiGet")]%string);;
       mret ∅).

End MoreStorage.

(** What hydration needs of [removeItem] and [clear]: a removed key, and
    every key of a cleared store, reads as [null]. *)
Class AsyncStorageMoreLaws (Disk : Type) `{!AsyncStorageAPI Disk}
    `{!AsyncStorageMoreAPI Disk} : Prop := {
  getItem_after_removeItem (key : string) (d d' : Disk) :
    AsyncStorage_removeItem key d = (Normal tt, d') ->
    AsyncStorage_getItem key d' = Normal None;
  getItem_after_clear (key : string) (d d' : Disk) :
    AsyncStorage_clear d = (Normal tt, d') ->
    AsyncStorage_getItem key d' = Normal None
}.

(** The device store in memory, continued. *)
Module DeviceMore.

#[export] Instance memory : AsyncStorageMoreAPI (gmap string string) := {|
  AsyncStorage_removeItem key d := (Normal tt, delete key d);
  AsyncStorage_clear d := (Normal tt, ∅);
  AsyncStorage_multiGet keys d := Normal (List.map (fun key => (key, d !! key)) keys)
|}.

(** A device store that rejects every call. *)
Definition broken : AsyncStorageAPI (gmap string string) := {|
  AsyncStorage_getItem key d := Thrown "Error: storage is not available";
  AsyncStorage_setItem key jsonValue d :=
    (Thrown "Error: storage is not available", d)
|}.

End DeviceMore.

(** ** The rest of the error utilities ([shared/utils/errors.ts]) *)

Module errors.

(** A caught value, of type [unknown]: an [AppError], another [Error] (kept
    as its message) or anything else (kept as its rendering [String(error)]). *)
Inductive Caught : Type :=
  | CaughtAppError (error : AppError)
  | CaughtError (message0 : string)
  | CaughtOther (rendering : string).

(** [s.includes(searchString)] *)
Fixpoint includes (searchString s : string) : bool :=
  String.prefix searchString s ||
  match s with
  | EmptyString => false
  | String _ rest => includes searchString rest
  end.

(** [handleError] (lines 80-104) *)
Definition handleError (error : Caught) : AppError :=
  match error with
  | CaughtAppError appError => appError
  | CaughtError message0 =>
      if includes "Network" message0 || includes "fetch" message0
      then createError NETWORK None (Some message0) None
      else if includes "timeout" message0 || includes "Timeout" message0
      then createError TIMEOUT None (Some message0) None
      else createError UNKNOWN (Some message0) (Some message0) None
  | CaughtOther rendering => createError UNKNOWN (Some rendering) None None
  end.

(** What [error as Error] stores as [originalError]. *)
Definition asError (error : Caught) : JsError :=
  match error with
  | CaughtAppError appError => message appError
  | CaughtError message0 => message0
  | CaughtOther rendering => rendering
  end.

Section Wrappers.

Context {Disk T : Type}.

(** [tryCatch] (lines 131-143).  [fn] resolves to a value or rejects with a
    caught value; the pair returned is [(result, error)], [None] for
    [null]. *)
Definition tryCatch (fn : World Disk -> (T + Caught) * World Disk)
    (errorType : ErrorType) : JS Disk (option T * option AppError) :=
  fun w =>
    match fn w with
    | (inl result, w') => (Normal (Some result, None), w')
    | (inr error, w') =>
        let appError :=
          match error with
          | CaughtAppError appError0 => appError0
          | _ => createError errorType None (Some (asError error)) None
          end in
        let '(_, w'') := logError appError None w' in
        (Normal (None, Some appError), w'')
    end.

(** [retry] (lines 148-172).  [sleep ms] stands for
    [await new Promise((resolve) => setTimeout(resolve, ms))]; what is
    thrown in the end is the [AppError] built by [createError], kept as its
    message. *)
Section Retry.

Variable sleep : Z -> JS Disk unit.
Variable fn : JS Disk T.
Variables maxRetries delayMs : Z.

Definition retry_failed (lastError : option JsError) : JS Disk T :=
  fun w =>
    (Thrown
       (message
          (createError UNKNOWN
             (Some ("Failed after " ++ pretty maxRetries ++ " attempts")%string)
             lastError None)),
     w).

(** The [for] loop from [attempt] on; [fuel] bounds the rounds left, which
    are [maxRetries - attempt + 1]. *)
Fixpoint retry_loop (fuel : nat) (attempt : Z) (lastError : option JsError)
    : JS Disk T :=
  match fuel with
  | O => retry_failed lastError
  | S fuel' =>
      if attempt <=? maxRetries
      then
        fun w =>
          match fn w with
          | (Normal result, w') => (Normal result, w')
          | (Thrown error, w') =>
              if attempt <? maxRetries
              then
                match sleep (delayMs * attempt) w' with
                | (Normal _, w'') =>
                    retry_loop fuel' (attempt + 1) (Some error) w''
                | (Thrown e, w'') => (Thrown e, w'')
                end
              else retry_loop fuel' (attempt + 1) (Some error) w'
          end
      else retry_failed lastError
  end.

Definition retry : JS Disk T :=
  retry_loop (Z.to_nat maxRetries) 1 None.

End Retry.

End Wrappers.

End errors.

(** ** The card number check ([shared/utils/validation.ts], lines 107-141) *)

Module validation.

Record ValidationResult : Type := {
  isValid : bool;
  error : option string
}.

Definition isDigit (c : ascii) : bool :=
  let n := N_of_ascii c in ((48 <=? n) && (n <=? 57))%N.

(** [s.replace(/\D/g, '')] *)
Fixpoint removeNonDigits (s : string) : string :=
  match s with
  | EmptyString => EmptyString
  | String c rest =>
      if isDigit c then String c (removeNonDigits rest) else removeNonDigits rest
  end.

(** [parseInt(c, 10)] of one decimal digit. *)
Definition parseInt (c : ascii) : Z := Z.of_N (N_of_ascii c) - 48.

(** One round of the Luhn loop, on the running [(sum, isEven)]. *)
Definition luhnRound (acc : Z * bool) (c : ascii) : Z * bool :=
  let '(sum, isEven) := acc in
  let digit := parseInt c in
  let digit :=
    if isEven
    then (let doubled := digit * 2 in if doubled >? 9 then doubled - 9 else doubled)
    else digit in
  (sum + digit, negb isEven).

(** The loop runs from the last character to the first. *)
Definition luhnSum (cleaned : string) : Z :=
  fst (fold_left luhnRound (rev (list_ascii_of_string cleaned)) (0, false)).

Definition creditCard (cardNumber : string) : ValidationResult :=
  let cleaned := removeNonDigits cardNumber in
  match cleaned with
  | EmptyString =>
      {| isValid := false; error := Some "Card number is required"%string |}
  | String _ _ =>
      if ((String.length cleaned <? 13) || (19 <? String.length cleaned))%nat
      then {| isValid := false; error := Some "Invalid card number length"%string |}
      else if negb (luhnSum cleaned mod 10 =? 0)
      then {| isValid := false; error := Some "Invalid card number"%string |}
      else {| isValid := true; error := None |}
  end.

End validation.

(** ** An observer for [retry] *)

(** A device that only keeps a journal: an operation that always fails and
    a [sleep] that always returns, each writing down that it ran. *)
Module RetryJournal.

Inductive Event : Type :=
  | Attempted
  | Slept (ms : Z).

Definition failing : JS (list Event) unit :=
  fun w =>
    (Thrown "Error: request failed",
     {| __DEV__ := __DEV__ w; console := console w;
        disk := (disk w ++ [Attempted])%list; state := state w |}).

Definition sleep (ms : Z) : JS (list Event) unit :=
  fun w =>
    (Normal tt,
     {| __DEV__ := __DEV__ w; console := console w;
        disk := (disk w ++ [Slept ms])%list; state := state w |}).

(** [rounds] failed attempts numbered from [attempt] on, with a sleep of
    [delayMs * attempt] after each one but the last. *)
Fixpoint schedule (rounds : nat) (attempt delayMs : Z) : list Event :=
  match rounds with
  | O => []
  | S O => [Attempted]
  | S rounds' =>
      Attempted :: Slept (delayMs * attempt) :: schedule rounds' (attempt + 1) delayMs
  end.

End RetryJournal.

(** Two views of the Luhn loop used to reason about it: what a digit adds
    to the sum (itself at an odd place from the right, its double with the
    digits added up at an even place), and the loop as a recursion from the
    right end. *)
Definition weight (isEven : bool) (digit : Z) : Z :=
  if isEven
  then (if digit * 2 >? 9 then digit * 2 - 9 else digit * 2)
  else digit.

Definition luhnFrom (acc : Z * bool) (cs : list ascii) : Z * bool :=
  fold_right (fun c acc' => validation.luhnRound acc' c) acc cs.

(** ** The cart on binary64 numbers *)

(** The reducer and the four public actions once more, with every [number]
    a binary64 value: a price, a quantity and both totals are [float]s, [+]
    and [*] round, and the comparisons are those of IEEE 754 (false on
    NaN).  The properties about the values of the totals, about the
    increment and about the least quantity of a line are stated on this
    embedding. *)
Module Float64.

Import PrimFloat.

Record Product : Type := {
  id : string;
  name : string;
  brand : string;
  price : float;
  image : string;
  description : string;
  size : string;
  notes : Notes;
  gender : Gender;
  rating : float;
  inStock : bool
}.

Record CartItem : Type := {
  product : Product;
  quantity : float
}.

Inductive CartAction : Type :=
  | ADD_ITEM (payload : Product)
  | REMOVE_ITEM (payload : string)
  | UPDATE_QUANTITY (productId : string) (quantity : float)
  | CLEAR_CART
  | LOAD_CART (payload : list CartItem)
  | SET_LOADING (payload : bool).

Record CartState : Type := {
  items : list CartItem;
  totalItems : float;
  totalPrice : float;
  isLoading : bool
}.

Definition initialState : CartState :=
  {| items := []; totalItems := 0; totalPrice := 0; isLoading := true |}.

(** [newItems.reduce((sum, item) => sum + item.quantity, 0)] *)
Definition reduceQuantity (newItems : list CartItem) : float :=
  fold_left (fun sum item => (sum + quantity item)%float) newItems 0%float.

(** [newItems.reduce((sum, item) => sum + item.product.price * item.quantity, 0)] *)
Definition reducePrice (newItems : list CartItem) : float :=
  fold_left
    (fun sum item => (sum + price (product item) * quantity item)%float)
    newItems 0%float.

Definition withItems (state : CartState) (newItems : list CartItem) : CartState :=
  {| items := newItems;
     totalItems := reduceQuantity newItems;
     totalPrice := reducePrice newItems;
     isLoading := isLoading state |}.

(** The body of [case 'REMOVE_ITEM'], which ['UPDATE_QUANTITY'] re-enters. *)
Definition reduceRemoveItem (state : CartState) (payload : string) : CartState :=
  let newItems :=
    List.filter (fun item => negb (String.eqb (id (product item)) payload))
                (items state) in
  withItems state newItems.

Definition cartReducer (state : CartState) (action : CartAction) : CartState :=
  match action with
  | ADD_ITEM payload =>
      let existingItem :=
        List.find (fun item => String.eqb (id (product item)) (id payload))
                  (items state) in
      let newItems :=
        match existingItem with
        | Some _ =>
            List.map
              (fun item =>
                 if String.eqb (id (product item)) (id payload)
                 then {| product := product item;
                         quantity := (quantity item + 1)%float |}
                 else item)
              (items state)
        | None =>
            (items state ++ [ {| product := payload; quantity := 1%float |} ])%list
        end in
      withItems state newItems
  | REMOVE_ITEM payload => reduceRemoveItem state payload
  | UPDATE_QUANTITY productId quantity0 =>
      if (quantity0 <=? 0)%float
      then reduceRemoveItem state productId
      else
        let newItems :=
          List.map
            (fun item =>
               if String.eqb (id (product item)) productId
               then {| product := product item; quantity := quantity0 |}
               else item)
            (items state) in
        withItems state newItems
  | CLEAR_CART =>
      {| items := []; totalItems := 0; totalPrice := 0;
         isLoading := isLoading state |}
  | LOAD_CART payload =>
      {| items := payload;
         totalItems := reduceQuantity payload;
         totalPrice := reducePrice payload;
         isLoading := false |}
  | SET_LOADING payload =>
      {| items := items state;
         totalItems := totalItems state;
         totalPrice := totalPrice state;
         isLoading := payload |}
  end.

(** The console, with a number in a logged context a binary64 value. *)
Inductive ContextValue : Type :=
  | CStr (s : string)
  | CNum (n : float).

Inductive ConsoleEntry : Type :=
  | DevReport (error : AppError) (context : option (list (string * ContextValue)))
  | ProdLine (line : string).

(** What a public action can read or change: the build flag, the console
    and the reducer state. *)
Record World : Type := {
  __DEV__ : bool;
  console : list ConsoleEntry;
  state : CartState
}.

Definition JS (A : Type) : Type := World -> Completion A * World.

Definition logError (error : AppError)
    (context : option (list (string * ContextValue))) : JS unit :=
  fun w =>
    let entry :=
      if __DEV__ w
      then DevReport error context
      else ProdLine ("[" ++ ErrorType_value (type error) ++ "] " ++ message error)%string in
    (Normal tt,
     {| __DEV__ := __DEV__ w; console := (console w ++ [entry])%list;
        state := state w |}).

Definition dispatch (action : CartAction) : JS unit :=
  fun w =>
    (Normal tt,
     {| __DEV__ := __DEV__ w; console := console w;
        state := cartReducer (state w) action |}).

Definition addItem (product0 : Product) : JS unit :=
  if negb (inStock product0)
  then
    logError
      (createError VALIDATION (Some "Cannot add out-of-stock item"%string) None None)
      (Some [("product", CStr (id product0))]%string)
  else dispatch (ADD_ITEM product0).

Definition removeItem (productId : string) : JS unit :=
  dispatch (REMOVE_ITEM productId).

Definition updateQuantity (productId : string) (quantity0 : float) : JS unit :=
  if (quantity0 <? 0)%float
  then
    logError
      (createError VALIDATION (Some "Quantity cannot be negative"%string) None None)
      (Some [("productId", CStr productId); ("quantity", CNum quantity0)]%string)
  else dispatch (UPDATE_QUANTITY productId quantity0).

Definition clearCart : JS unit :=
  dispatch CLEAR_CART.

(** Sequences of calls, as for the exact embedding. *)
Inductive Call : Type :=
  | CallAddItem (product0 : Product)
  | CallRemoveItem (productId : string)
  | CallUpdateQuantity (productId : string) (quantity0 : float)
  | CallClearCart.

Definition perform (c : Call) : JS unit :=
  match c with
  | CallAddItem product0 => addItem product0
  | CallRemoveItem productId => removeItem productId
  | CallUpdateQuantity productId quantity0 => updateQuantity productId quantity0
  | CallClearCart => clearCart
  end.

Definition after {A : Type} (c : JS A) (w : World) : World := snd (c w).

Fixpoint trace (calls : list Call) (w : World) : list World :=
  match calls with
  | [] => []
  | c :: calls' => let w' := after (perform c) w in w' :: trace calls' w'
  end.

Definition freshWorld (dev : bool) : World :=
  {| __DEV__ := dev; console := []; state := initialState |}.

(** The sum of a sequence of numbers: from 0, each number added in turn. *)
Definition sum (numbers : list float) : float :=
  fold_left PrimFloat.add numbers 0%float.

(** The totals of a state are the sums over its lines. *)
Definition totalsAgree (s : CartState) : Prop :=
  totalItems s = sum (List.map quantity (items s)) /\
  totalPrice s =
    sum (List.map (fun line => (price (product line) * quantity line)%float)
                  (items s)).

Definition lineIds (lines : list CartItem) : list string :=
  List.map (fun line => id (product line)) lines.

(** Every line has quantity at least 1 and no identifier occurs twice. *)
Definition WellFormed (lines : list CartItem) : Prop :=
  Forall (fun line => (1 <=? quantity line)%float = true) lines /\
  NoDup (lineIds lines).

(** The states a store passes through from [w0]: the public actions, with
    [updateQuantity] called on the quantities that satisfy [allowed], and the
    two dispatches of the mount effect, for the snapshots that satisfy
    [accepted]. *)
Inductive Reachable (accepted : list CartItem -> Prop) (allowed : float -> Prop)
    (w0 : World) : World -> Prop :=
  | reach_start : Reachable accepted allowed w0 w0
  | reach_addItem (product0 : Product) (w : World) :
      Reachable accepted allowed w0 w ->
      Reachable accepted allowed w0 (after (addItem product0) w)
  | reach_removeItem (productId : string) (w : World) :
      Reachable accepted allowed w0 w ->
      Reachable accepted allowed w0 (after (removeItem productId) w)
  | reach_updateQuantity (productId : string) (quantity0 : float) (w : World) :
      allowed quantity0 ->
      Reachable accepted allowed w0 w ->
      Reachable accepted allowed w0 (after (updateQuantity productId quantity0) w)
  | reach_clearCart (w : World) :
      Reachable accepted allowed w0 w ->
      Reachable accepted allowed w0 (after clearCart w)
  | reach_load (payload : list CartItem) (w : World) :
      accepted payload ->
      Reachable accepted allowed w0 w ->
      Reachable accepted allowed w0 (after (dispatch (LOAD_CART payload)) w)
  | reach_set_loading (b : bool) (w : World) :
      Reachable accepted allowed w0 w ->
      Reachable accepted allowed w0 (after (dispatch (SET_LOADING b)) w).

(** Catalogue entries 1 and 3; a decimal literal denotes the nearest
    binary64 value. *)
#[warnings="-inexact-float"]
Definition product_1 : Product :=
  {| id := "1";
     name := "Noir Essence";
     brand := "Luxe Parfums";
     price := 129.99%float;
     image := "https://images.unsplash.com/photo-1541643600914-78b084683601?w=400&h=600&fit=crop";
     description := "A sophisticated blend of dark woods and subtle spices, perfect for evening wear.";
     size := "100ml";
     notes := {| top := ["Bergamot"; "Black Pepper"; "Cardamom"];
                 middle := ["Lavender"; "Iris"; "Geranium"];
                 base := ["Cedarwood"; "Vetiver"; "Amber"] |};
     gender := male;
     rating := 4.8%float;
     inStock := true |}%string.

#[warnings="-inexact-float"]
Definition product_3 : Product :=
  {| id := "3";
     name := "Azure Coast";
     brand := "Coastal Scents";
     price := 99.99%float;
     image := "https://images.unsplash.com/photo-1588405748880-12d1d2a59c75?w=400&h=600&fit=crop";
     description := "Fresh and invigorating, capturing the essence of Mediterranean coastlines.";
     size := "100ml";
     notes := {| top := ["Sea Salt"; "Grapefruit"; "Mint"];
                 middle := ["Aquatic Notes"; "Sage"; "Rosemary"];
                 base := ["Driftwood"; "Amber"; "Musk"] |};
     gender := unisex;
     rating := 4.6%float;
     inStock := true |}%string.

(** The binary64 number the whole number [n] denotes, for [n] from 0 and
    below 2^63: the one nearest to [n], which is [n] itself up to 2^53. *)
Definition whole (n : Z) : float := PrimFloat.of_uint63 (Uint63.of_Z n).

(** [getItemQuantity]: [item?.quantity || 0] on the first line found; the
    numbers that count as false are 0, -0 and NaN. *)
Definition getItemQuantity (state0 : CartState) (productId : string) : float :=
  let item :=
    List.find (fun item => String.eqb (id (product item)) productId)
              (items state0) in
  match item with
  | Some found =>
      if ((quantity found =? 0)%float || is_nan (quantity found))%bool
      then 0%float
      else quantity found
  | None => 0%float
  end.

(** [isInCart]: [state.items.some(...)]. *)
Definition isInCart (state0 : CartState) (productId : string) : bool :=
  List.existsb (fun item => String.eqb (id (product item)) productId)
               (items state0).

(** The plus and minus handlers of the cart screen; [currentQuantity] is the
    quantity of the line as displayed. *)
Module CartScreen.

Definition handleIncrement (productId : string) (currentQuantity : float)
    : JS unit :=
  updateQuantity productId (currentQuantity + 1)%float.

Definition handleDecrement (productId : string) (currentQuantity : float)
    : JS unit :=
  if (1 <? currentQuantity)%float
  then updateQuantity productId (currentQuantity - 1)%float
  else fun w => (Normal tt, w).

End CartScreen.

(** The minus handler of the product screen of [product0]. *)
Module ProductScreen.

Definition handleDecrement (product0 : Product) : JS unit :=
  fun w =>
    let quantity0 := getItemQuantity (state w) (id product0) in
    if (1 <? quantity0)%float
    then updateQuantity (id product0) (quantity0 - 1)%float w
    else (Normal tt, w).

End ProductScreen.

(** A shift record with no digit lost. *)
Definition exact_record (m : Z) : SpecFloat.shr_record :=
  {| SpecFloat.shr_m := m; SpecFloat.shr_r := false; SpecFloat.shr_s := false |}.

End Float64.

(** * Properties *)

(** ** Binary64 arithmetic *)

Section Binary64Arithmetic.

Import Floats.

Lemma digits2_pos_size (p : positive) : digits2_pos p = Pos.size p.
Proof. induction p; simpl; congruence. Qed.

Lemma digits2_pos_bounds (p : positive) :
  2 ^ (Zpos (digits2_pos p) - 1) <= Zpos p < 2 ^ Zpos (digits2_pos p).
Proof.
  rewrite digits2_pos_size. split.
  - pose proof (Pos.size_le p) as H.
    assert (Zpos (2 ^ Pos.size p) <= Zpos p~0) as H' by exact H.
    rewrite Pos2Z.inj_pow in H'.
    replace (Zpos (Pos.size p)) with (Zpos (Pos.size p) - 1 + 1) in H' by lia.
    rewrite Z.pow_add_r in H' by lia. lia.
  - pose proof (Pos.size_gt p) as H.
    assert (Zpos p < Zpos (2 ^ Pos.size p)) as H' by exact H.
    rewrite Pos2Z.inj_pow in H'. exact H'.
Qed.

(** The number of digits of a number between two consecutive powers of 2. *)
Lemma digits2_pos_unique (p : positive) (d : Z) :
  2 ^ (d - 1) <= Zpos p < 2 ^ d -> 0 < d -> Zpos (digits2_pos p) = d.
Proof.
  intros [Hlo Hhi] Hd. pose proof (digits2_pos_bounds p) as [Hlo' Hhi'].
  destruct (Z.lt_trichotomy (Zpos (digits2_pos p)) d) as [Hlt|[Heq|Hgt]];
    [|exact Heq|]; exfalso.
  - assert (2 ^ Zpos (digits2_pos p) <= 2 ^ (d - 1))
      by (apply Z.pow_le_mono_r; lia). lia.
  - assert (2 ^ d <= 2 ^ (Zpos (digits2_pos p) - 1))
      by (apply Z.pow_le_mono_r; lia). lia.
Qed.

Lemma shr_1_m (mrs : shr_record) :
  0 <= shr_m mrs -> shr_m (shr_1 mrs) = shr_m mrs / 2.
Proof.
  destruct mrs as [m r s]. simpl. intros Hm.
  destruct m as [|[p|p|]|p]; simpl; try reflexivity; try lia.
  - rewrite Pos2Z.inj_xI. apply Z.div_unique with 1; lia.
  - rewrite Pos2Z.inj_xO. apply Z.div_unique with 0; lia.
Qed.

Lemma iter_pos_shr_1_m (p : positive) (mrs : shr_record) :
  0 <= shr_m mrs ->
  shr_m (iter_pos shr_1 p mrs) = shr_m mrs / 2 ^ Zpos p.
Proof.
  revert mrs. induction p as [p IH|p IH|]; intros mrs Hm; simpl iter_pos.
  - assert (0 <= shr_m (shr_1 mrs)) as H1
      by (rewrite shr_1_m by exact Hm; apply Z.div_pos; lia).
    assert (0 <= shr_m (iter_pos shr_1 p (shr_1 mrs))) as H2
      by (rewrite IH by exact H1; apply Z.div_pos; lia).
    rewrite IH by exact H2. rewrite IH by exact H1. rewrite shr_1_m by exact Hm.
    rewrite !Z.div_div by lia. f_equal.
    replace (Zpos p~1) with (1 + Zpos p + Zpos p) by lia.
    rewrite !Z.pow_add_r by lia. change (2 ^ 1) with 2. ring.
  - assert (0 <= shr_m (iter_pos shr_1 p mrs)) as H2
      by (rewrite IH by exact Hm; apply Z.div_pos; lia).
    rewrite IH by exact H2. rewrite IH by exact Hm.
    rewrite Z.div_div by lia. f_equal.
    replace (Zpos p~0) with (Zpos p + Zpos p) by lia.
    rewrite !Z.pow_add_r by lia. ring.
  - rewrite shr_1_m by exact Hm. reflexivity.
Qed.

Lemma round_nearest_even_bounds (m : Z) (l : location) :
  m <= round_nearest_even m l <= m + 1.
Proof.
  destruct l as [|[| |]]; simpl; try lia.
  destruct (Z.even m); lia.
Qed.

Lemma fexp_large (k : Z) : -1021 <= k -> fexp prec emax k = k - 53.
Proof. intros Hk. unfold fexp, SpecFloat.emin, prec, emax. lia. Qed.

(** Rounding a mantissa of 54 digits or more: the result is a finite number
    with a larger exponent, or an infinity. *)
Lemma binary_round_aux_large (S : positive) (e : Z) :
  2 ^ 53 <= Zpos S -> -1000 <= e ->
  match binary_round_aux prec emax false (Zpos S) e loc_Exact with
  | S754_infinity false => True
  | S754_finite false _ e'' => e < e''
  | _ => False
  end.
Proof.
  intros HS He.
  pose proof (digits2_pos_bounds S) as [Hlo Hhi].
  set (d := Zpos (digits2_pos S)) in *.
  assert (54 <= d) as Hd.
  { destruct (Z.le_gt_cases 54 d) as [H|H]; [exact H|exfalso].
    assert (2 ^ d <= 2 ^ 53) by (apply Z.pow_le_mono_r; lia). lia. }
  unfold binary_round_aux, shr_fexp. simpl Zdigits2. fold d.
  rewrite fexp_large by lia.
  destruct (d + e - 53 - e) as [|n|n] eqn:En; try lia.
  assert (Zpos n = d - 53) as Hn by lia.
  unfold shr at 1. cbn [shr_record_of_loc]. cbv beta iota zeta.
  remember (iter_pos shr_1 n {| shr_m := Zpos S; shr_r := false; shr_s := false |})
    as mrs1 eqn:Emrs1.
  assert (shr_m mrs1 = Zpos S / 2 ^ Zpos n) as Hm1
    by (rewrite Emrs1; apply iter_pos_shr_1_m; simpl; lia).
  assert (2 ^ 52 <= shr_m mrs1 < 2 ^ 53) as Hm1b.
  { rewrite Hm1, Hn. split.
    - apply Z.div_le_lower_bound; [lia|].
      rewrite <- Z.pow_add_r by lia.
      replace (d - 53 + 52) with (d - 1) by lia. exact Hlo.
    - apply Z.div_lt_upper_bound; [lia|].
      rewrite <- Z.pow_add_r by lia.
      replace (d - 53 + 53) with d by lia. exact Hhi. }
  pose proof (round_nearest_even_bounds (shr_m mrs1) (loc_of_shr_record mrs1))
    as Hround.
  remember (round_nearest_even (shr_m mrs1) (loc_of_shr_record mrs1)) as m2 eqn:Em2.
  destruct m2 as [|q|q]; try lia.
  simpl Zdigits2.
  destruct (Z.eq_dec (Zpos q) (2 ^ 53)) as [Htop|Hnottop].
  - assert (Zpos (digits2_pos q) = 54) as Hdq
      by (apply digits2_pos_unique; [rewrite Htop; simpl; lia | lia]).
    rewrite Hdq, fexp_large by lia.
    replace (54 + (e + Zpos n) - 53 - (e + Zpos n)) with 1 by lia.
    unfold shr. cbn [iter_pos].
    change (2 ^ 53) with 9007199254740992 in Htop. injection Htop as ->.
    cbn [shr_1 shr_m orb].
    destruct (e + Zpos n + 1 <=? emax - prec); [lia | exact I].
  - assert (Zpos (digits2_pos q) = 53) as Hdq
      by (apply digits2_pos_unique; [simpl; lia | lia]).
    rewrite Hdq, fexp_large by lia.
    replace (53 + (e + Zpos n) - 53 - (e + Zpos n)) with 0 by lia.
    unfold shr. cbn [shr_m].
    destruct (e + Zpos n <=? emax - prec); [lia | exact I].
Qed.

Lemma Prim2SF_one : Prim2SF 1 = S754_finite false 4503599627370496 (-52).
Proof. reflexivity. Qed.

Lemma Prim2SF_zero : Prim2SF 0 = S754_zero false.
Proof. reflexivity. Qed.

Lemma iter_xO_ge (m d : positive) : Zpos m <= Zpos (Pos.iter xO m d).
Proof.
  apply (Pos.iter_invariant d _ xO (fun y => Zpos m <= Zpos y)); [|lia].
  intros y Hy. rewrite Pos2Z.inj_xO. lia.
Qed.

(** A valid binary64 number that is at least 1: not negative, exponent at
    least -52, and 53 digits of mantissa. *)
Lemma SFleb_one_finite (s : bool) (m : positive) (e : Z) :
  valid_binary (S754_finite s m e) = true ->
  SFleb (S754_finite false 4503599627370496 (-52)) (S754_finite s m e) = true ->
  s = false /\ -52 <= e /\ 2 ^ 52 <= Zpos m.
Proof.
  intros Hvalid Hle. unfold SFleb, SFcompare in Hle.
  destruct s; [discriminate|]. split; [reflexivity|].
  assert (-52 <= e) as He.
  { destruct (Z.compare_spec (-52) e); [lia | lia | discriminate]. }
  split; [exact He|].
  simpl in Hvalid. apply Bool.andb_true_iff in Hvalid as [Hcanon _].
  unfold canonical_mantissa in Hcanon. apply Z.eqb_eq in Hcanon.
  unfold fexp, SpecFloat.emin, prec, emax in Hcanon.
  pose proof (digits2_pos_bounds m) as [Hlo _].
  assert (Zpos (digits2_pos m) = 53) as Hd by lia.
  rewrite Hd in Hlo. exact Hlo.
Qed.

Lemma SFleb_one_add_one (x : spec_float) :
  valid_binary x = true ->
  SFleb (S754_finite false 4503599627370496 (-52)) x = true ->
  SFleb (S754_finite false 4503599627370496 (-52))
        (SF64add x (S754_finite false 4503599627370496 (-52))) = true.
Proof.
  intros Hvalid Hle. destruct x as [s|s| |s m e]; try discriminate.
  - destruct s; [discriminate | reflexivity].
  - destruct (SFleb_one_finite s m e Hvalid Hle) as (-> & He & Hm).
    unfold SF64add, SFadd.
    replace (Z.min e (-52)) with (-52) by lia.
    assert (exists a : positive,
              fst (shl_align m e (-52)) = a /\ 2 ^ 52 <= Zpos a) as (a & -> & Ha).
    { unfold shl_align. destruct (-52 - e) as [|dd|dd]; simpl; eauto.
      eexists. split; [reflexivity|]. pose proof (iter_xO_ge m dd). lia. }
    change (fst (shl_align 4503599627370496 (-52) (-52))) with 4503599627370496%positive.
    cbn [cond_Zopp]. rewrite <- Pos2Z.inj_add.
    set (S := (a + 4503599627370496)%positive).
    assert (2 ^ 53 <= Zpos S) as HS.
    { subst S. rewrite Pos2Z.inj_add. change (2 ^ 53) with (2 ^ 52 + 2 ^ 52).
      change (Zpos 4503599627370496) with (2 ^ 52). lia. }
    unfold binary_normalize, binary_round.
    pose proof (digits2_pos_bounds S) as [_ Hhi].
    assert (54 <= Zpos (digits2_pos S)) as Hd.
    { destruct (Z.le_gt_cases 54 (Zpos (digits2_pos S))) as [H|H]; [exact H|exfalso].
      assert (2 ^ Zpos (digits2_pos S) <= 2 ^ 53)
        by (apply Z.pow_le_mono_r; lia). lia. }
    rewrite fexp_large by lia.
    unfold shl_align.
    destruct (Zpos (digits2_pos S) + -52 - 53 - -52) as [|dd|dd] eqn:Ediff; try lia;
      pose proof (binary_round_aux_large S (-52) HS ltac:(lia)) as Hround;
      destruct (binary_round_aux prec emax false (Zpos S) (-52) loc_Exact)
        as [s'|s'| |s' m' e']; try contradiction;
      destruct s'; try contradiction; try reflexivity;
      unfold SFleb, SFcompare;
      destruct (Z.compare_spec (-52) e'); try lia; reflexivity.
Qed.

(** Adding 1 to a number that is at least 1 gives a number that is at
    least 1, roundings and infinity included. *)
Lemma leb_one_add_one (q : float) :
  (1 <=? q)%float = true -> (1 <=? q + 1)%float = true.
Proof.
  rewrite !leb_spec, add_spec, Prim2SF_one.
  apply SFleb_one_add_one, Prim2SF_valid.
Qed.

(** *** Whole numbers *)

Lemma iter_xO_value (m d : positive) :
  Zpos (Pos.iter xO m d) = Zpos m * 2 ^ Zpos d.
Proof.
  change (Pos.iter xO m d) with (shift_pos d m).
  rewrite shift_pos_correct. change (Z.pow_pos 2 d) with (2 ^ Zpos d). ring.
Qed.

Lemma shr_1_exact (x : Z) : 0 <= x -> shr_1 (Float64.exact_record (x * 2)) = Float64.exact_record x.
Proof.
  intros Hx. destruct x as [|p|p]; [reflexivity| |lia].
  replace (Zpos p * 2) with (Zpos p~0) by lia. reflexivity.
Qed.

Lemma iter_pos_shr_1_exact (p : positive) (k : Z) :
  0 <= k ->
  iter_pos shr_1 p (Float64.exact_record (k * 2 ^ Zpos p)) = Float64.exact_record k.
Proof.
  revert k. induction p as [p IH|p IH|]; intros k Hk; cbn [iter_pos].
  - replace (k * 2 ^ Zpos p~1) with (k * 2 ^ Zpos p * 2 ^ Zpos p * 2).
    + rewrite shr_1_exact by (apply Z.mul_nonneg_nonneg; [apply Z.mul_nonneg_nonneg|]; lia).
      rewrite IH by (apply Z.mul_nonneg_nonneg; lia).
      apply IH, Hk.
    + replace (Zpos p~1) with (Zpos p + Zpos p + 1) by lia.
      rewrite !Z.pow_add_r by lia. change (2 ^ 1) with 2. ring.
  - replace (k * 2 ^ Zpos p~0) with (k * 2 ^ Zpos p * 2 ^ Zpos p).
    + rewrite IH by (apply Z.mul_nonneg_nonneg; lia).
      apply IH, Hk.
    + replace (Zpos p~0) with (Zpos p + Zpos p) by lia.
      rewrite !Z.pow_add_r by lia. ring.
  - change (2 ^ 1) with 2. apply shr_1_exact, Hk.
Qed.

(** A mantissa of exactly 53 digits is left as it is. *)
Lemma binary_round_aux_53 (m : positive) (e : Z) :
  Zpos (digits2_pos m) = 53 -> -1074 <= e <= 971 ->
  binary_round_aux prec emax false (Zpos m) e loc_Exact = S754_finite false m e.
Proof.
  intros Hd He. unfold binary_round_aux, shr_fexp. simpl Zdigits2.
  rewrite Hd, fexp_large by lia.
  replace (53 + e - 53 - e) with 0 by lia.
  cbn [shr shr_record_of_loc shr_m loc_of_shr_record round_nearest_even Zdigits2].
  rewrite Hd, fexp_large by lia.
  replace (53 + e - 53 - e) with 0 by lia.
  cbn [shr shr_record_of_loc shr_m].
  assert ((e <=? emax - prec) = true) as ->
    by (apply Z.leb_le; unfold emax, prec; lia).
  reflexivity.
Qed.

(** A longer mantissa whose low digits are all 0 loses them. *)
Lemma binary_round_aux_shift (M X : positive) (n : positive) (e : Z) :
  Zpos M = Zpos X * 2 ^ Zpos n ->
  Zpos (digits2_pos X) = 53 -> -1074 <= e + Zpos n <= 971 -> -1000 <= e ->
  binary_round_aux prec emax false (Zpos M) e loc_Exact =
    S754_finite false X (e + Zpos n).
Proof.
  intros HM Hd He He'.
  pose proof (digits2_pos_bounds X) as [Hlo Hhi]. rewrite Hd in Hlo, Hhi.
  assert (Zpos (digits2_pos M) = 53 + Zpos n) as HdM.
  { apply digits2_pos_unique; [|lia]. rewrite HM. split.
    - replace (53 + Zpos n - 1) with (52 + Zpos n) by lia.
      rewrite Z.pow_add_r by lia. apply Z.mul_le_mono_nonneg_r; [lia|exact Hlo].
    - rewrite Z.pow_add_r by lia. apply Z.mul_lt_mono_pos_r; [lia|exact Hhi]. }
  unfold binary_round_aux, shr_fexp. simpl Zdigits2.
  rewrite HdM, fexp_large by lia.
  replace (53 + Zpos n + e - 53 - e) with (Zpos n) by lia.
  cbn [shr shr_record_of_loc].
  rewrite HM. fold (Float64.exact_record (Zpos X * 2 ^ Zpos n)).
  rewrite iter_pos_shr_1_exact by lia.
  cbn [Float64.exact_record shr_m loc_of_shr_record round_nearest_even Zdigits2].
  rewrite Hd, fexp_large by lia.
  replace (53 + (e + Zpos n) - 53 - (e + Zpos n)) with 0 by lia.
  cbn [shr shr_record_of_loc shr_m].
  assert ((e + Zpos n <=? emax - prec) = true) as ->
    by (apply Z.leb_le; unfold emax, prec; lia).
  reflexivity.
Qed.

(** Rounding [K * 2 ^ j], for [K] of at most 53 digits, at exponent [e]:
    the mantissa is [K] brought to 53 digits. *)
Lemma binary_round_whole (M K : positive) (j e : Z) :
  Zpos M = Zpos K * 2 ^ j -> 0 <= j ->
  Zpos (digits2_pos K) <= 53 ->
  -1000 <= e -> e + j <= 900 ->
  exists P : positive,
    Zpos P = Zpos K * 2 ^ (53 - Zpos (digits2_pos K)) /\
    binary_round prec emax false M e =
      S754_finite false P (e + j + Zpos (digits2_pos K) - 53).
Proof.
  intros HM Hj HdK He Hej.
  pose proof (digits2_pos_bounds K) as [Hlo Hhi].
  set (dK := Zpos (digits2_pos K)) in *.
  assert (0 < dK) as HdK0 by (unfold dK; lia).
  assert (Zpos (digits2_pos M) = dK + j) as HdM.
  { apply digits2_pos_unique; [|lia]. rewrite HM. split.
    - replace (dK + j - 1) with (dK - 1 + j) by lia.
      rewrite Z.pow_add_r by lia. apply Z.mul_le_mono_nonneg_r; [lia|exact Hlo].
    - rewrite Z.pow_add_r by lia. apply Z.mul_lt_mono_pos_r; [lia|exact Hhi]. }
  assert (exists P : positive, Zpos P = Zpos K * 2 ^ (53 - dK)) as [P HP].
  { exists (Z.to_pos (Zpos K * 2 ^ (53 - dK))). rewrite Z2Pos.id; [reflexivity|].
    apply Z.mul_pos_pos; [lia|]. apply Z.pow_pos_nonneg; lia. }
  assert (Zpos (digits2_pos P) = 53) as HdP.
  { apply digits2_pos_unique; [|lia]. rewrite HP. split.
    - replace (53 - 1) with (dK - 1 + (53 - dK)) by lia.
      rewrite Z.pow_add_r by lia. apply Z.mul_le_mono_nonneg_r; [lia|exact Hlo].
    - replace 53 with (dK + (53 - dK)) at 2 by lia.
      rewrite Z.pow_add_r by lia. apply Z.mul_lt_mono_pos_r; [lia|exact Hhi]. }
  exists P. split; [exact HP|].
  unfold binary_round. rewrite HdM, fexp_large by lia.
  unfold shl_align.
  destruct (dK + j + e - 53 - e) as [|n|n] eqn:En.
  - (* 53 digits already *)
    assert (Zpos M = Zpos P) as HMP.
    { rewrite HM, HP. replace (53 - dK) with j by lia. reflexivity. }
    injection HMP as ->.
    rewrite binary_round_aux_53 by (try exact HdP; lia).
    f_equal. lia.
  - (* more than 53 digits: the low ones are 0 *)
    rewrite (binary_round_aux_shift M P n e); try exact HdP; try lia.
    + f_equal. lia.
    + rewrite HM, HP, <- Z.mul_assoc, <- Z.pow_add_r by lia.
      f_equal. f_equal. lia.
  - (* fewer than 53 digits: shifted left *)
    assert (Zpos (Pos.iter xO M n) = Zpos P) as HMP.
    { rewrite iter_xO_value, HM, HP, <- Z.mul_assoc, <- Z.pow_add_r by lia.
      f_equal. f_equal. lia. }
    injection HMP as ->.
    rewrite binary_round_aux_53 by (try exact HdP; lia).
    f_equal. lia.
Qed.

Lemma Prim2SF_whole (n : Z) :
  0 <= n < 2 ^ 63 ->
  Prim2SF (Float64.whole n) = binary_normalize prec emax n 0 false.
Proof.
  intros Hn. unfold Float64.whole. rewrite of_uint63_spec, Uint63.of_Z_spec.
  rewrite Z.mod_small; [reflexivity|]. exact Hn.
Qed.

Lemma digits2_pos_le_53 (N : positive) :
  Zpos N < 2 ^ 53 -> Zpos (digits2_pos N) <= 53.
Proof.
  intros HN. pose proof (digits2_pos_bounds N) as [Hlo _].
  destruct (Z.le_gt_cases (Zpos (digits2_pos N)) 53) as [H|H]; [exact H|exfalso].
  assert (2 ^ 53 <= 2 ^ (Zpos (digits2_pos N) - 1))
    by (apply Z.pow_le_mono_r; lia). lia.
Qed.

(** The binary64 form of a Float64.whole number below 2^53. *)
Lemma whole_finite (N : positive) :
  Zpos N < 2 ^ 53 ->
  exists P : positive,
    Zpos P = Zpos N * 2 ^ (53 - Zpos (digits2_pos N)) /\
    Prim2SF (Float64.whole (Zpos N)) =
      S754_finite false P (Zpos (digits2_pos N) - 53).
Proof.
  intros HN. rewrite Prim2SF_whole by (change (2 ^ 63) with (2 ^ 53 * 1024); lia).
  cbn [binary_normalize].
  destruct (binary_round_whole N N 0 0) as (P & HP & ->);
    [simpl; lia | lia | apply digits2_pos_le_53, HN | lia | lia |].
  exists P. split; [exact HP | f_equal; lia].
Qed.

(** That form brought to the exponent of 1. *)
Lemma shl_align_whole (N P : positive) :
  Zpos N < 2 ^ 53 ->
  Zpos P = Zpos N * 2 ^ (53 - Zpos (digits2_pos N)) ->
  Zpos (fst (shl_align P (Zpos (digits2_pos N) - 53) (-52))) = Zpos N * 2 ^ 52.
Proof.
  intros HN HP. pose proof (digits2_pos_le_53 N HN) as Hd.
  unfold shl_align.
  destruct (-52 - (Zpos (digits2_pos N) - 53)) as [|k|k] eqn:Ek; cbn [fst]; try lia.
  - rewrite HP. f_equal. f_equal. lia.
  - rewrite iter_xO_value, HP, <- Z.mul_assoc, <- Z.pow_add_r by lia.
    f_equal. f_equal. lia.
Qed.

(** Below 2^53, adding 1 to a Float64.whole number is exact. *)
Lemma whole_add_one (n : Z) :
  0 <= n < 2 ^ 53 -> (Float64.whole n + 1)%float = Float64.whole (n + 1).
Proof.
  intros Hn.
  destruct (Z.eq_dec n 0) as [->|Hn0]; [reflexivity|].
  destruct (Z.eq_dec n (2 ^ 53 - 1)) as [->|Hntop]; [reflexivity|].
  destruct n as [|N|N]; try lia.
  apply Prim2SF_inj.
  rewrite add_spec, Prim2SF_one,
    (Prim2SF_whole (Zpos N + 1)) by (change (2 ^ 63) with (2 ^ 53 * 1024); lia).
  destruct (whole_finite N) as (P & HP & ->); [lia|].
  pose proof (shl_align_whole N P ltac:(lia) HP) as Ha.
  pose proof (digits2_pos_le_53 N ltac:(lia)) as Hd.
  unfold SF64add, SFadd.
  replace (Z.min (Zpos (digits2_pos N) - 53) (-52)) with (-52) by lia.
  change (fst (shl_align 4503599627370496 (-52) (-52)))
    with 4503599627370496%positive.
  cbn [cond_Zopp]. rewrite <- Pos2Z.inj_add.
  set (S := (fst (shl_align P (Zpos (digits2_pos N) - 53) (-52)) +
             4503599627370496)%positive).
  assert (Zpos S = Zpos (N + 1) * 2 ^ 52) as HS.
  { subst S. rewrite Pos2Z.inj_add, Ha, Pos2Z.inj_add.
    change (Zpos 4503599627370496) with (2 ^ 52). ring. }
  replace (Zpos N + 1) with (Zpos (N + 1)) by lia.
  cbn [binary_normalize].
  assert (Zpos (digits2_pos (N + 1)) <= 53) as Hd1
    by (apply digits2_pos_le_53; lia).
  destruct (binary_round_whole S (N + 1) 52 (-52)) as (P1 & HP1 & ->);
    [exact HS | lia | exact Hd1 | lia | lia |].
  destruct (binary_round_whole (N + 1) (N + 1) 0 0) as (P2 & HP2 & ->);
    [simpl; lia | lia | exact Hd1 | lia | lia |].
  assert (P1 = P2) as -> by (apply Pos2Z.inj; congruence).
  f_equal; lia.
Qed.

(** Up to 2^53, taking 1 from a Float64.whole number is exact. *)
Lemma whole_sub_one (n : Z) :
  1 <= n <= 2 ^ 53 -> (Float64.whole n - 1)%float = Float64.whole (n - 1).
Proof.
  intros Hn.
  destruct (Z.eq_dec n 1) as [->|Hn1]; [reflexivity|].
  destruct (Z.eq_dec n (2 ^ 53)) as [->|Hntop]; [reflexivity|].
  destruct n as [|N|N]; try lia.
  apply Prim2SF_inj.
  rewrite sub_spec, Prim2SF_one,
    (Prim2SF_whole (Zpos N - 1)) by (change (2 ^ 63) with (2 ^ 53 * 1024); lia).
  destruct (whole_finite N) as (P & HP & ->); [lia|].
  pose proof (shl_align_whole N P ltac:(lia) HP) as Ha.
  pose proof (digits2_pos_le_53 N ltac:(lia)) as Hd.
  unfold SF64sub, SFsub.
  replace (Z.min (Zpos (digits2_pos N) - 53) (-52)) with (-52) by lia.
  change (fst (shl_align 4503599627370496 (-52) (-52)))
    with 4503599627370496%positive.
  cbn [cond_Zopp]. rewrite Ha.
  change (Zpos 4503599627370496) with (2 ^ 52).
  destruct (Zpos N - 1) as [|K|K] eqn:EK; try lia.
  replace (Zpos N * 2 ^ 52 - 2 ^ 52) with (Zpos K * 2 ^ 52) by lia.
  assert (exists S : positive, Zpos S = Zpos K * 2 ^ 52) as [S HS].
  { exists (Z.to_pos (Zpos K * 2 ^ 52)). rewrite Z2Pos.id; lia. }
  rewrite <- HS. cbn [binary_normalize].
  assert (Zpos (digits2_pos K) <= 53) as Hd1
    by (apply digits2_pos_le_53; lia).
  destruct (binary_round_whole S K 52 (-52)) as (P1 & HP1 & ->);
    [exact HS | lia | exact Hd1 | lia | lia |].
  destruct (binary_round_whole K K 0 0) as (P2 & HP2 & ->);
    [simpl; lia | lia | exact Hd1 | lia | lia |].
  assert (P1 = P2) as -> by (apply Pos2Z.inj; congruence).
  f_equal; lia.
Qed.

(** A Float64.whole number from 1 up is at least 1; from 2 up it is above 1. *)
Lemma leb_one_whole (n : Z) :
  1 <= n <= 2 ^ 53 -> (1 <=? Float64.whole n)%float = true.
Proof.
  intros Hn.
  destruct (Z.eq_dec n (2 ^ 53)) as [->|Hntop]; [reflexivity|].
  destruct n as [|N|N]; try lia.
  rewrite leb_spec, Prim2SF_one.
  destruct (whole_finite N) as (P & HP & ->); [lia|].
  pose proof (digits2_pos_le_53 N ltac:(lia)) as Hd.
  unfold SFleb, SFcompare.
  destruct (Z.compare_spec (-52) (Zpos (digits2_pos N) - 53)) as [E|E|E];
    [|reflexivity|lia].
  assert (Zpos P = Zpos 4503599627370496) as HP'.
  { pose proof (digits2_pos_bounds N) as [_ Hhi].
    assert (Zpos (digits2_pos N) = 1) as Hone by lia.
    rewrite HP, Hone. rewrite Hone in Hhi. change (2 ^ 1) with 2 in Hhi.
    replace (Zpos N) with 1 by lia. reflexivity. }
  injection HP' as ->. reflexivity.
Qed.

Lemma ltb_one_whole (n : Z) :
  2 <= n <= 2 ^ 53 -> (1 <? Float64.whole n)%float = true.
Proof.
  intros Hn.
  destruct (Z.eq_dec n (2 ^ 53)) as [->|Hntop]; [reflexivity|].
  destruct n as [|N|N]; try lia.
  rewrite ltb_spec, Prim2SF_one.
  destruct (whole_finite N) as (P & HP & ->); [lia|].
  pose proof (digits2_pos_le_53 N ltac:(lia)) as Hd.
  pose proof (digits2_pos_bounds N) as [_ Hhi].
  assert (2 <= Zpos (digits2_pos N)) as Hd2.
  { destruct (Z.le_gt_cases 2 (Zpos (digits2_pos N))) as [H|H]; [exact H|exfalso].
    replace (Zpos (digits2_pos N)) with 1 in Hhi by lia.
    change (2 ^ 1) with 2 in Hhi. lia. }
  unfold SFltb, SFcompare.
  destruct (Z.compare_spec (-52) (Zpos (digits2_pos N) - 53)) as [E|E|E];
    [lia|reflexivity|lia].
Qed.

(** A number that is at least 1 passes both guards on a quantity. *)
Lemma leb_one_guards (q : float) :
  (1 <=? q)%float = true ->
  (q <? 0)%float = false /\ (q <=? 0)%float = false.
Proof.
  rewrite leb_spec, ltb_spec, leb_spec, Prim2SF_one, Prim2SF_zero.
  pose proof (Prim2SF_valid q) as Hvalid.
  destruct (Prim2SF q) as [s|s| |s m e]; try discriminate.
  - destruct s; [discriminate|]. intros _. split; reflexivity.
  - intros Hle.
    destruct (SFleb_one_finite s m e Hvalid Hle) as (-> & _ & _).
    split; reflexivity.
Qed.

(** Rounding a positive mantissa gives a positive number. *)
Lemma binary_round_positive (S : positive) (e : Z) :
  -1000 <= e <= 800 ->
  match binary_round prec emax false S e with
  | S754_infinity false | S754_finite false _ _ => True
  | _ => False
  end.
Proof.
  intros He.
  destruct (Z.le_gt_cases (2 ^ 53) (Zpos S)) as [Hbig|Hsmall].
  - pose proof (digits2_pos_bounds S) as [_ Hhi].
    assert (54 <= Zpos (digits2_pos S)) as Hd.
    { destruct (Z.le_gt_cases 54 (Zpos (digits2_pos S))) as [H|H]; [exact H|exfalso].
      assert (2 ^ Zpos (digits2_pos S) <= 2 ^ 53)
        by (apply Z.pow_le_mono_r; lia). lia. }
    unfold binary_round. rewrite fexp_large by lia. unfold shl_align.
    destruct (Zpos (digits2_pos S) + e - 53 - e) as [|dd|dd] eqn:Ediff; try lia.
    pose proof (binary_round_aux_large S e Hbig ltac:(lia)) as Hround.
    destruct (binary_round_aux prec emax false (Zpos S) e loc_Exact)
      as [s'|s'| |s' m' e']; try contradiction;
      destruct s'; try contradiction; exact I.
  - destruct (binary_round_whole S S 0 e) as (P & _ & ->);
      [simpl; lia | lia | apply digits2_pos_le_53; lia | lia | lia |].
    exact I.
Qed.

(** Taking 1 from a number above 1 leaves a number above 0. *)
Lemma ltb_one_sub_one (q : float) :
  (1 <? q)%float = true ->
  (q - 1 <? 0)%float = false /\ (q - 1 <=? 0)%float = false.
Proof.
  rewrite !ltb_spec, leb_spec, sub_spec, Prim2SF_one, Prim2SF_zero.
  pose proof (Prim2SF_valid q) as Hvalid.
  destruct (Prim2SF q) as [s|s| |s m e]; try discriminate.
  - destruct s; [discriminate|]. intros _. split; reflexivity.
  - intros Hlt.
    assert (SFleb (S754_finite false 4503599627370496 (-52)) (S754_finite s m e)
            = true) as Hle.
    { unfold SFltb in Hlt. unfold SFleb.
      destruct (SFcompare _ _) as [[| |]|]; try discriminate; reflexivity. }
    destruct (SFleb_one_finite s m e Hvalid Hle) as (-> & He & Hm).
    unfold SF64sub, SFsub.
    replace (Z.min e (-52)) with (-52) by lia.
    change (fst (shl_align 4503599627370496 (-52) (-52)))
      with 4503599627370496%positive.
    cbn [cond_Zopp].
    assert (2 ^ 52 < Zpos (fst (shl_align m e (-52)))) as Ha.
    { unfold shl_align. destruct (-52 - e) as [|dd|dd] eqn:Ee; cbn [fst]; try lia.
      - assert (e = -52) as -> by lia.
        unfold SFltb, SFcompare in Hlt. rewrite Z.compare_refl in Hlt.
        change (Pos.compare_cont Eq 4503599627370496 m)
          with (Pos.compare 4503599627370496 m) in Hlt.
        change (2 ^ 52) with (Zpos 4503599627370496).
        destruct (Pos.compare_spec 4503599627370496 m) as [E|E|E];
          try discriminate.
        apply Pos2Z.pos_lt_pos, E.
      - rewrite iter_xO_value.
        assert (2 <= 2 ^ Zpos dd).
        { change 2 with (2 ^ 1) at 1. apply Z.pow_le_mono_r; lia. }
        nia. }
    change (Zpos 4503599627370496) with (2 ^ 52).
    destruct (Zpos (fst (shl_align m e (-52))) - 2 ^ 52) as [|D|D] eqn:ED; try lia.
    cbn [binary_normalize].
    pose proof (binary_round_positive D (-52) ltac:(lia)) as Hpos.
    destruct (binary_round prec emax false D (-52)) as [s'|s'| |s' m' e'];
      try contradiction; destruct s'; try contradiction; split; reflexivity.
Qed.

(** A number that is at least 1 counts as true: it is neither 0 nor NaN. *)
Lemma leb_one_truthy (q : float) :
  (1 <=? q)%float = true -> ((q =? 0)%float || is_nan q)%bool = false.
Proof.
  unfold is_nan. rewrite leb_spec, !eqb_spec, Prim2SF_one, Prim2SF_zero.
  pose proof (Prim2SF_valid q) as Hvalid.
  destruct (Prim2SF q) as [s|s| |s m e]; try discriminate.
  - destruct s; [discriminate|]. reflexivity.
  - intros Hle. destruct (SFleb_one_finite s m e Hvalid Hle) as (-> & _ & _).
    unfold SFeqb, SFcompare. rewrite Z.compare_refl, Pos.compare_cont_refl.
    reflexivity.
Qed.

End Binary64Arithmetic.

(** ** The cart on binary64 numbers *)

Section Float64Cart.

Import PrimFloat.
Import Float64.

Implicit Types (w : World) (lines : list CartItem) (pid : string)
  (s : CartState).

(** The callback of a [reduce] adds one number per line, in order. *)
Lemma fold_left_add_map lines (f : CartItem -> float) (a : float) :
  fold_left (fun sum item => (sum + f item)%float) lines a =
  fold_left PrimFloat.add (List.map f lines) a.
Proof.
  revert a. induction lines as [|line rest IH]; intros a; simpl.
  - reflexivity.
  - apply IH.
Qed.

Lemma Float64_reduceQuantity_sum lines :
  reduceQuantity lines = sum (List.map quantity lines).
Proof. apply fold_left_add_map. Qed.

Lemma Float64_reducePrice_sum lines :
  reducePrice lines =
    sum (List.map (fun line => (price (product line) * quantity line)%float) lines).
Proof.
  apply (fold_left_add_map lines
           (fun line => (price (product line) * quantity line)%float)).
Qed.

Lemma Float64_withItems_totalsAgree s lines : totalsAgree (withItems s lines).
Proof.
  split; simpl.
  - apply Float64_reduceQuantity_sum.
  - apply Float64_reducePrice_sum.
Qed.

(** Every action other than [SET_LOADING] recomputes both totals from the
    lines it leaves; [SET_LOADING] copies lines and totals. *)
Lemma Float64_cartReducer_totalsAgree s (a : CartAction) :
  totalsAgree s -> totalsAgree (cartReducer s a).
Proof.
  intros Hs. destruct a as [p|pid|pid q| |payload|b]; simpl.
  - apply Float64_withItems_totalsAgree.
  - apply Float64_withItems_totalsAgree.
  - destruct (q <=? 0)%float; apply Float64_withItems_totalsAgree.
  - split; reflexivity.
  - split; simpl; [apply Float64_reduceQuantity_sum | apply Float64_reducePrice_sum].
  - exact Hs.
Qed.

(** A call either dispatches one action, which is neither [LOAD_CART] nor
    [SET_LOADING], or leaves the reducer state as it was. *)
Lemma Float64_perform_state (c : Call) w :
  state (after (perform c) w) = state w \/
  exists a, state (after (perform c) w) = cartReducer (state w) a /\
            (forall payload, a <> LOAD_CART payload) /\
            (forall b, a <> SET_LOADING b).
Proof.
  destruct c as [p|pid|pid q|]; unfold after; simpl.
  - unfold addItem. destruct (inStock p); simpl.
    + right. exists (ADD_ITEM p). repeat split; congruence.
    + left. reflexivity.
  - right. exists (REMOVE_ITEM pid). repeat split; congruence.
  - unfold updateQuantity. destruct (q <? 0)%float; simpl.
    + left. reflexivity.
    + right. exists (UPDATE_QUANTITY pid q). repeat split; congruence.
  - right. exists CLEAR_CART. repeat split; congruence.
Qed.

Lemma Float64_perform_totalsAgree (c : Call) w :
  totalsAgree (state w) -> totalsAgree (state (after (perform c) w)).
Proof.
  intros Hw. destruct (Float64_perform_state c w) as [E | (a & E & _)]; rewrite E.
  - exact Hw.
  - apply Float64_cartReducer_totalsAgree, Hw.
Qed.

Lemma Float64_trace_totalsAgree (calls : list Call) w :
  totalsAgree (state w) ->
  Forall (fun w' => totalsAgree (state w')) (trace calls w).
Proof.
  revert w. induction calls as [|c calls IH]; intros w Hw; simpl.
  - constructor.
  - constructor.
    + apply Float64_perform_totalsAgree, Hw.
    + apply IH, Float64_perform_totalsAgree, Hw.
Qed.

(** C1: for every sequence of [addItem] / [removeItem] / [updateQuantity] /
    [clearCart] calls applied to a store in the initial empty state, after
    each call [totalItems] is the sum of the quantities of the lines and
    [totalPrice] is the sum over the lines of price times quantity, the
    numbers being the program's binary64 numbers, multiplied and added as
    the program does, the sum running from 0 through the lines in order. *)
Theorem C1_totals_after_every_call (dev : bool) (calls : list Call) :
  Forall
    (fun w' : World =>
       totalItems (state w') = sum (List.map quantity (items (state w'))) /\
       totalPrice (state w') =
         sum (List.map (fun line => (price (product line) * quantity line)%float)
                       (items (state w'))))
    (trace calls (freshWorld dev)).
Proof.
  apply (Float64_trace_totalsAgree calls (freshWorld dev)).
  split; reflexivity.
Qed.

(** *** Well-formed lines *)

Lemma Float64_find_id_None lines pid :
  List.find (fun item => String.eqb (id (product item)) pid) lines = None ->
  ~ In pid (lineIds lines).
Proof.
  induction lines as [|line rest IH]; simpl; intros Hfind Hin.
  - exact Hin.
  - destruct (String.eqb (id (product line)) pid) eqn:E; [discriminate|].
    destruct Hin as [Heq | Hin].
    + apply String.eqb_neq in E. contradiction.
    + exact (IH Hfind Hin).
Qed.

Lemma Float64_lineIds_map_quantity lines (test : CartItem -> bool)
    (f : CartItem -> float) :
  lineIds
    (List.map
       (fun item =>
          if test item
          then {| product := product item; quantity := f item |}
          else item)
       lines) = lineIds lines.
Proof.
  induction lines as [|line rest IH]; simpl; [reflexivity|].
  rewrite IH. destruct (test line); reflexivity.
Qed.

Lemma Float64_lineIds_filter_incl lines (keep : CartItem -> bool) pid :
  In pid (lineIds (List.filter keep lines)) -> In pid (lineIds lines).
Proof.
  induction lines as [|line rest IH]; simpl; [tauto|].
  destruct (keep line); simpl; tauto.
Qed.

Lemma Float64_WellFormed_filter lines (keep : CartItem -> bool) :
  WellFormed lines -> WellFormed (List.filter keep lines).
Proof.
  intros [Hq Hnd]. split.
  - apply List.Forall_forall. intros line Hin.
    apply List.filter_In in Hin as [Hin _].
    rewrite List.Forall_forall in Hq. apply Hq, Hin.
  - clear Hq. induction lines as [|line rest IH]; simpl; [constructor|].
    inversion Hnd as [|? ? Hnotin Hrest]; subst.
    destruct (keep line); simpl.
    + constructor; [|apply IH, Hrest].
      intros Hin. apply Hnotin.
      apply list_elem_of_In, (Float64_lineIds_filter_incl rest keep).
      apply list_elem_of_In, Hin.
    + apply IH, Hrest.
Qed.

Lemma Float64_WellFormed_map_quantity lines (test : CartItem -> bool)
    (f : CartItem -> float) :
  (forall line, In line lines -> test line = true ->
                (1 <=? quantity line)%float = true ->
                (1 <=? f line)%float = true) ->
  WellFormed lines ->
  WellFormed
    (List.map
       (fun item =>
          if test item
          then {| product := product item; quantity := f item |}
          else item)
       lines).
Proof.
  intros Hf [Hq Hnd]. split.
  - rewrite List.Forall_forall in Hq. apply List.Forall_forall. intros line Hin.
    apply List.in_map_iff in Hin as (old & Hline & Hold).
    destruct (test old) eqn:E; subst line; simpl.
    + apply Hf; [assumption | assumption | apply Hq, Hold].
    + apply Hq, Hold.
  - rewrite Float64_lineIds_map_quantity. exact Hnd.
Qed.

Lemma Float64_WellFormed_snoc lines (p : Product) :
  ~ In (id p) (lineIds lines) ->
  WellFormed lines ->
  WellFormed (lines ++ [ {| product := p; quantity := 1%float |} ]).
Proof.
  intros Hfresh [Hq Hnd]. split.
  - apply Forall_app. split; [exact Hq|].
    constructor; [reflexivity | constructor].
  - unfold lineIds. rewrite List.map_app. simpl.
    apply NoDup_app. split; [exact Hnd|]. split.
    + intros x Hx Hx'. apply list_elem_of_In in Hx.
      apply list_elem_of_In in Hx'. destruct Hx' as [<- | []].
      exact (Hfresh Hx).
    + apply NoDup_singleton.
Qed.

(** The reducer keeps the lines well formed, provided a snapshot it is
    asked to adopt is well formed and a quantity it is asked to set is 0 or
    below (the line is then removed) or at least 1.  A number strictly
    between 0 and 1 and NaN are neither. *)
Lemma Float64_cartReducer_WellFormed s (a : CartAction) :
  (forall payload, a = LOAD_CART payload -> WellFormed payload) ->
  (forall pid q, a = UPDATE_QUANTITY pid q ->
                 (q <=? 0)%float = true \/ (1 <=? q)%float = true) ->
  WellFormed (items s) ->
  WellFormed (items (cartReducer s a)).
Proof.
  intros Hload Hupdate Hs. destruct a as [p|pid|pid q| |payload|b]; simpl.
  - destruct (List.find _ (items s)) as [line|] eqn:Hfind.
    + apply Float64_WellFormed_map_quantity; [|exact Hs].
      intros old _ _ Hold. apply leb_one_add_one, Hold.
    + apply Float64_WellFormed_snoc; [|exact Hs].
      apply Float64_find_id_None, Hfind.
  - apply Float64_WellFormed_filter, Hs.
  - destruct (q <=? 0)%float eqn:Eq; simpl.
    + apply Float64_WellFormed_filter, Hs.
    + apply Float64_WellFormed_map_quantity; [|exact Hs].
      intros _ _ _ _.
      destruct (Hupdate pid q eq_refl) as [H|H]; [congruence | exact H].
  - split; constructor.
  - apply Hload. reflexivity.
  - exact Hs.
Qed.

(** C2, amended: in every state reached from a state whose lines are well
    formed (the initial empty state is one) through [addItem], [removeItem],
    [clearCart], [updateQuantity] with a quantity that is 0 or below or else
    1 or above, and through hydration from snapshots that are themselves
    well formed, every line has quantity at least 1 and the product
    identifiers of the lines are pairwise distinct. *)
Theorem C2_reachable_lines_well_formed (w0 w : World) :
  WellFormed (items (state w0)) ->
  Reachable WellFormed
    (fun q => (q <=? 0)%float = true \/ (1 <=? q)%float = true) w0 w ->
  Forall (fun line => (1 <=? quantity line)%float = true) (items (state w)) /\
  NoDup (lineIds (items (state w))).
Proof.
  intros H0 Hreach. change (WellFormed (items (state w))).
  induction Hreach
    as [|P w _ IH|pid w _ IH|pid q w Hq _ IH|w _ IH|payload w Hok _ _|b w _ IH].
  - exact H0.
  - unfold after, addItem. destruct (inStock P); simpl; [|exact IH].
    apply (Float64_cartReducer_WellFormed (state w) (ADD_ITEM P));
      [discriminate | discriminate | exact IH].
  - apply (Float64_cartReducer_WellFormed (state w) (REMOVE_ITEM pid));
      [discriminate | discriminate | exact IH].
  - unfold after, updateQuantity. destruct (q <? 0)%float; simpl; [exact IH|].
    apply (Float64_cartReducer_WellFormed (state w) (UPDATE_QUANTITY pid q));
      [discriminate | | exact IH].
    intros pid' q' E. injection E as <- <-. exact Hq.
  - split; constructor.
  - exact Hok.
  - exact IH.
Qed.

(** *** Line-by-line effect of adding *)

Lemma Float64_lookup_map lines (f : CartItem -> CartItem) (i : nat) :
  List.map f lines !! i = f <$> (lines !! i).
Proof. apply list_lookup_fmap. Qed.

Lemma Float64_find_id_absent lines pid :
  (forall line, In line lines -> id (product line) <> pid) ->
  List.find (fun item => String.eqb (id (product item)) pid) lines = None.
Proof.
  induction lines as [|line rest IH]; simpl; intros Habsent; [reflexivity|].
  destruct (String.eqb_spec (id (product line)) pid) as [E|_].
  - exfalso. exact (Habsent line (or_introl eq_refl) E).
  - apply IH. intros other Hin. apply Habsent. right. exact Hin.
Qed.

Lemma Float64_find_id_present lines pid :
  (exists line, In line lines /\ id (product line) = pid) ->
  exists found,
    List.find (fun item => String.eqb (id (product item)) pid) lines = Some found.
Proof.
  intros (line & Hin & E).
  destruct (List.find _ lines) as [found|] eqn:Hfind; [eauto|].
  exfalso. apply (List.find_none _ _ Hfind) in Hin.
  apply String.eqb_neq in Hin. contradiction.
Qed.

(** C3, amended: for an in-stock product [P], [addItem P] appends the line
    ([P], 1) after the unchanged existing lines when no line carries [P]'s
    identifier; when one does, it keeps the number and order of the lines,
    replaces the quantity of each line carrying [P]'s identifier by the
    binary64 sum of that quantity and 1, which for a whole quantity below
    2^53 is that quantity plus 1 exactly, and leaves every other line as it
    was.  Two [addItem P] from the empty cart leave exactly the line
    ([P], 2). *)
Theorem C3_addItem_appends_or_increments w (P : Product) :
  inStock P = true ->
  let lines := items (state w) in
  let lines' := items (state (after (addItem P) w)) in
  ((forall line, In line lines -> id (product line) <> id P) ->
   lines' = lines ++ [ {| product := P; quantity := 1%float |} ]) /\
  ((exists line, In line lines /\ id (product line) = id P) ->
   length lines' = length lines /\
   forall (i : nat) (line : CartItem),
     lines !! i = Some line ->
     (id (product line) = id P ->
      lines' !! i =
        Some {| product := product line;
                quantity := (quantity line + 1)%float |} /\
      forall n : Z,
        0 <= n < 2 ^ 53 -> quantity line = whole n ->
        lines' !! i =
          Some {| product := product line; quantity := whole (n + 1) |}) /\
     (id (product line) <> id P -> lines' !! i = Some line)) /\
  (forall dev : bool,
     items (state (after (addItem P) (after (addItem P) (freshWorld dev)))) =
       [ {| product := P; quantity := 2%float |} ]).
Proof.
  intros Hstock lines lines'. subst lines lines'.
  unfold after, addItem. rewrite Hstock. simpl.
  split; [|split].
  - intros Habsent. rewrite (Float64_find_id_absent _ _ Habsent). reflexivity.
  - intros Hpresent.
    destruct (Float64_find_id_present _ _ Hpresent) as [found ->].
    split; [apply List.length_map|].
    intros i line Hi. rewrite Float64_lookup_map, Hi. simpl.
    split; intros E.
    + apply String.eqb_eq in E. rewrite E. split; [reflexivity|].
      intros n Hn ->. rewrite (whole_add_one n Hn). reflexivity.
    + apply String.eqb_neq in E. rewrite E. reflexivity.
  - intros dev. simpl. rewrite String.eqb_refl. reflexivity.
Qed.

(** X9: the totals are the binary64 sums over the lines in every state
    reached through the public actions, with any quantity at all given to
    [updateQuantity], and through hydration from any snapshot whatever, well
    formed or not. *)
Theorem totals_agree_through_hydration (w0 w : World) :
  totalsAgree (state w0) ->
  Reachable (fun _ => True) (fun _ => True) w0 w ->
  totalItems (state w) = sum (List.map quantity (items (state w))) /\
  totalPrice (state w) =
    sum (List.map (fun line => (price (product line) * quantity line)%float)
                  (items (state w))).
Proof.
  intros H0 Hreach. change (totalsAgree (state w)).
  induction Hreach
    as [|P w _ IH|pid w _ IH|pid q w _ _ IH|w _ IH|payload w _ _ IH|b w _ IH].
  - exact H0.
  - apply (Float64_perform_totalsAgree (CallAddItem P)), IH.
  - apply (Float64_perform_totalsAgree (CallRemoveItem pid)), IH.
  - apply (Float64_perform_totalsAgree (CallUpdateQuantity pid q)), IH.
  - apply (Float64_perform_totalsAgree CallClearCart), IH.
  - apply (Float64_cartReducer_totalsAgree (state w) (LOAD_CART payload)), IH.
  - exact IH.
Qed.

(** *** The reads *)

Lemma Float64_isInCart_find s pid :
  isInCart s pid =
    match List.find (fun item => String.eqb (id (product item)) pid) (items s) with
    | Some _ => true
    | None => false
    end.
Proof.
  unfold isInCart. induction (items s) as [|line rest IH]; simpl; [reflexivity|].
  destruct (String.eqb (id (product line)) pid); [reflexivity | exact IH].
Qed.

Lemma Float64_find_map_quantity lines pid (test : CartItem -> bool)
    (f : CartItem -> float) :
  List.find (fun item => String.eqb (id (product item)) pid)
    (List.map
       (fun item =>
          if test item
          then {| product := product item; quantity := f item |}
          else item)
       lines) =
  (fun found =>
     if test found
     then {| product := product found; quantity := f found |}
     else found)
    <$> List.find (fun item => String.eqb (id (product item)) pid) lines.
Proof.
  induction lines as [|line rest IH]; simpl; [reflexivity|].
  destruct (test line) eqn:Et; simpl;
    destruct (String.eqb (id (product line)) pid) eqn:E; simpl;
    rewrite ?Et; auto.
Qed.

Lemma Float64_find_snoc lines pid (line : CartItem) :
  List.find (fun item => String.eqb (id (product item)) pid) (lines ++ [line]) =
  match List.find (fun item => String.eqb (id (product item)) pid) lines with
  | Some found => Some found
  | None => if String.eqb (id (product line)) pid then Some line else None
  end.
Proof.
  induction lines as [|first rest IH]; simpl.
  - destruct (String.eqb (id (product line)) pid); reflexivity.
  - destruct (String.eqb (id (product first)) pid); [reflexivity | exact IH].
Qed.

(** What [getItemQuantity] reads from a line that holds a whole number. *)
Lemma Float64_getItemQuantity_whole s pid (found : CartItem) (n : Z) :
  0 <= n <= 2 ^ 53 ->
  List.find (fun item => String.eqb (id (product item)) pid) (items s) = Some found ->
  quantity found = whole n ->
  getItemQuantity s pid = whole n.
Proof.
  intros Hn Hfind Hq. unfold getItemQuantity. rewrite Hfind, Hq.
  destruct (Z.eq_dec n 0) as [->|Hn0]; [reflexivity|].
  rewrite leb_one_truthy; [reflexivity|]. apply leb_one_whole. lia.
Qed.

(** X2: for a product in stock whose first line holds the whole quantity
    [n], with [n] below 2^53, or which has no line ([n] is 0),
    [getItemQuantity] reads [n] before [addItem] and [n + 1] after it, and
    [isInCart] is true after it. *)
Theorem addItem_raises_quantity_read w (P : Product) (n : Z) :
  inStock P = true ->
  0 <= n < 2 ^ 53 ->
  match List.find (fun item => String.eqb (id (product item)) (id P))
                  (items (state w)) with
  | Some found => quantity found = whole n
  | None => n = 0
  end ->
  isInCart (state (after (addItem P) w)) (id P) = true /\
  getItemQuantity (state w) (id P) = whole n /\
  getItemQuantity (state (after (addItem P) w)) (id P) = whole (n + 1).
Proof.
  intros Hstock Hn Hline.
  assert (state (after (addItem P) w) = cartReducer (state w) (ADD_ITEM P)) as ->
    by (unfold after, addItem; rewrite Hstock; reflexivity).
  rewrite Float64_isInCart_find.
  destruct (List.find (fun item => String.eqb (id (product item)) (id P))
                      (items (state w))) as [found|] eqn:Hfind.
  - assert (String.eqb (id (product found)) (id P) = true) as E
      by (apply List.find_some in Hfind as [_ E]; exact E).
    assert (List.find (fun item => String.eqb (id (product item)) (id P))
              (items (cartReducer (state w) (ADD_ITEM P))) =
            Some {| product := product found; quantity := whole (n + 1) |})
      as Hfind'.
    { simpl. rewrite Hfind. simpl.
      rewrite Float64_find_map_quantity, Hfind. simpl.
      rewrite E, Hline, (whole_add_one n Hn). reflexivity. }
    split; [|split].
    + rewrite Hfind'. reflexivity.
    + apply (Float64_getItemQuantity_whole _ _ found n); [lia | exact Hfind | exact Hline].
    + apply (Float64_getItemQuantity_whole _ _ _ (n + 1) ltac:(lia) Hfind').
      reflexivity.
  - subst n.
    assert (List.find (fun item => String.eqb (id (product item)) (id P))
              (items (cartReducer (state w) (ADD_ITEM P))) =
            Some {| product := P; quantity := 1%float |}) as Hfind'.
    { simpl. rewrite Hfind. simpl.
      rewrite Float64_find_snoc, Hfind. simpl.
      rewrite String.eqb_refl. reflexivity. }
    split; [|split].
    + rewrite Hfind'. reflexivity.
    + unfold getItemQuantity. rewrite Hfind. reflexivity.
    + apply (Float64_getItemQuantity_whole _ _ _ (0 + 1) ltac:(lia) Hfind').
      reflexivity.
Qed.

(** *** The handlers of the cart screen and of the product screen *)

(** A quantity that passes both guards is written to the lines of the
    product. *)
Lemma Float64_updateQuantity_accepted pid (q : float) w :
  (q <? 0)%float = false -> (q <=? 0)%float = false ->
  updateQuantity pid q w =
    (Normal tt,
     {| __DEV__ := __DEV__ w; console := console w;
        state :=
          withItems (state w)
            (List.map
               (fun item =>
                  if String.eqb (id (product item)) pid
                  then {| product := product item; quantity := q |}
                  else item)
               (items (state w))) |}).
Proof.
  intros Hlt Hle. unfold updateQuantity, dispatch. rewrite Hlt. simpl.
  rewrite Hle. reflexivity.
Qed.

Lemma Float64_map_set_quantity_twice lines pid (q1 q2 : float) :
  List.map
    (fun item =>
       if String.eqb (id (product item)) pid
       then {| product := product item; quantity := q2 |}
       else item)
    (List.map
       (fun item =>
          if String.eqb (id (product item)) pid
          then {| product := product item; quantity := q1 |}
          else item)
       lines) =
  List.map
    (fun item =>
       if String.eqb (id (product item)) pid
       then {| product := product item; quantity := q2 |}
       else item)
    lines.
Proof.
  rewrite List.map_map. apply List.map_ext. intros line.
  destruct (String.eqb (id (product line)) pid) eqn:E; simpl; rewrite E;
    reflexivity.
Qed.

Lemma Float64_map_set_same_quantity lines pid (q : float) :
  (forall line, In line lines -> id (product line) = pid -> quantity line = q) ->
  List.map
    (fun item =>
       if String.eqb (id (product item)) pid
       then {| product := product item; quantity := q |}
       else item)
    lines = lines.
Proof.
  induction lines as [|line rest IH]; simpl; intros Hsame; [reflexivity|].
  f_equal.
  - destruct (String.eqb_spec (id (product line)) pid) as [E|_]; [|reflexivity].
    rewrite <- (Hsame line (or_introl eq_refl) E). destruct line; reflexivity.
  - apply IH. intros other Hin. apply Hsame. right. exact Hin.
Qed.

Lemma Float64_handleDecrement_keeps_lines pid (q : float) w :
  fst (CartScreen.handleDecrement pid q w) = Normal tt /\
  console (after (CartScreen.handleDecrement pid q) w) = console w /\
  lineIds (items (state (after (CartScreen.handleDecrement pid q) w))) =
    lineIds (items (state w)).
Proof.
  unfold after, CartScreen.handleDecrement.
  destruct (1 <? q)%float eqn:Hq; [|repeat split].
  destruct (ltb_one_sub_one q Hq) as [Hlt Hle].
  rewrite (Float64_updateQuantity_accepted pid _ w Hlt Hle). simpl.
  repeat split. apply Float64_lineIds_map_quantity.
Qed.

Lemma Float64_ProductScreen_handleDecrement_as_CartScreen (P : Product) w :
  ProductScreen.handleDecrement P w =
    CartScreen.handleDecrement (id P) (getItemQuantity (state w) (id P)) w.
Proof.
  unfold ProductScreen.handleDecrement, CartScreen.handleDecrement.
  destruct (1 <? getItemQuantity (state w) (id P))%float; reflexivity.
Qed.

(** X10: the minus button of either screen never removes a line and is
    never rejected: whatever binary64 number the quantity shown is, the
    handler returns normally, writes nothing to the console and keeps the
    identifiers of the lines in their order.  (It passes on the quantity
    shown less 1, which is above 0 but need not be 1 or more.) *)
Theorem handleDecrement_never_removes w :
  (forall pid (q : float),
     fst (CartScreen.handleDecrement pid q w) = Normal tt /\
     console (after (CartScreen.handleDecrement pid q) w) = console w /\
     lineIds (items (state (after (CartScreen.handleDecrement pid q) w))) =
       lineIds (items (state w))) /\
  (forall P : Product,
     fst (ProductScreen.handleDecrement P w) = Normal tt /\
     console (after (ProductScreen.handleDecrement P) w) = console w /\
     lineIds (items (state (after (ProductScreen.handleDecrement P) w))) =
       lineIds (items (state w))).
Proof.
  split.
  - intros pid q. apply Float64_handleDecrement_keeps_lines.
  - intros P. unfold after.
    rewrite Float64_ProductScreen_handleDecrement_as_CartScreen.
    apply (Float64_handleDecrement_keeps_lines
             (id P) (getItemQuantity (state w) (id P)) w).
Qed.

(** X11: on the cart screen, for a product whose lines all show the whole
    quantity [q] with [q] at least 1 and below 2^53, plus followed by minus
    (pressed on the line as redrawn, which shows the binary64 sum of [q] and
    1) gives back the lines as they were; so does minus followed by plus
    when [q] is above 1. *)
Theorem handleIncrement_handleDecrement_inverse w pid (q : Z) :
  1 <= q < 2 ^ 53 ->
  (forall line, In line (items (state w)) ->
                id (product line) = pid -> quantity line = whole q) ->
  items (state (after (CartScreen.handleDecrement pid (whole q + 1)%float)
                  (after (CartScreen.handleIncrement pid (whole q)) w))) =
    items (state w) /\
  (1 < q ->
   items (state (after (CartScreen.handleIncrement pid (whole q - 1)%float)
                   (after (CartScreen.handleDecrement pid (whole q)) w))) =
     items (state w)).
Proof.
  intros Hq Hsame.
  assert (forall n : Z, 1 <= n <= 2 ^ 53 ->
            (whole n <? 0)%float = false /\ (whole n <=? 0)%float = false)
    as Hguards by (intros n Hn; apply leb_one_guards, leb_one_whole, Hn).
  split.
  - unfold after, CartScreen.handleDecrement, CartScreen.handleIncrement.
    rewrite (whole_add_one q) by lia.
    destruct (Hguards (q + 1) ltac:(lia)) as [Hlt Hle].
    rewrite (Float64_updateQuantity_accepted pid _ w Hlt Hle). cbn [snd].
    rewrite (ltb_one_whole (q + 1)) by lia.
    rewrite (whole_sub_one (q + 1)) by lia.
    replace (q + 1 - 1) with q by lia.
    destruct (Hguards q ltac:(lia)) as [Hlt' Hle'].
    rewrite (Float64_updateQuantity_accepted pid _ _ Hlt' Hle'). simpl.
    rewrite Float64_map_set_quantity_twice.
    apply Float64_map_set_same_quantity, Hsame.
  - intros Hgt.
    unfold after, CartScreen.handleDecrement, CartScreen.handleIncrement.
    rewrite (ltb_one_whole q) by lia.
    rewrite (whole_sub_one q) by lia.
    destruct (Hguards (q - 1) ltac:(lia)) as [Hlt Hle].
    rewrite (Float64_updateQuantity_accepted pid _ w Hlt Hle). cbn [snd].
    rewrite (whole_add_one (q - 1)) by lia.
    replace (q - 1 + 1) with q by lia.
    destruct (Hguards q ltac:(lia)) as [Hlt' Hle'].
    rewrite (Float64_updateQuantity_accepted pid _ _ Hlt' Hle'). simpl.
    rewrite Float64_map_set_quantity_twice.
    apply Float64_map_set_same_quantity, Hsame.
Qed.

End Float64Cart.

Section Float64Examples.

Import PrimFloat.
Import Float64.

(** C2 as stated fails, in two ways.  Hydration adopts whatever snapshot it
    is given: a fresh store that adopts a snapshot holding product 1 twice,
    once with quantity 0, has a line below 1 and a repeated identifier.  And
    [updateQuantity] stores any number above 0: after [addItem] of product 1
    and [updateQuantity] of it to 0.5, with no hydration at all, the one line
    has quantity 0.5. *)
Lemma C2_counterexample :
  let w0 := freshWorld true in
  (let snapshot := [ {| product := product_1; quantity := 0%float |};
                     {| product := product_1; quantity := 3%float |} ] in
   let w := after (dispatch (LOAD_CART snapshot)) w0 in
   Reachable (fun _ => True) (fun _ => True) w0 w /\
   ~ Forall (fun line => (1 <=? quantity line)%float = true) (items (state w)) /\
   ~ NoDup (lineIds (items (state w)))) /\
  (let w := after (updateQuantity "1" 0.5%float) (after (addItem product_1) w0) in
   Reachable (fun _ => False) (fun _ => True) w0 w /\
   items (state w) = [ {| product := product_1; quantity := 0.5%float |} ] /\
   ~ Forall (fun line => (1 <=? quantity line)%float = true) (items (state w))).
Proof.
  simpl. split; [split; [|split] | split; [|split]].
  - apply reach_load; [exact I | apply reach_start].
  - intros H. inversion H as [|? ? Hq _]; subst. simpl in Hq. discriminate.
  - intros H. inversion H as [|? ? Hnotin _]; subst.
    apply Hnotin. simpl. left.
  - apply reach_updateQuantity; [exact I|].
    apply reach_addItem, reach_start.
  - reflexivity.
  - intros H. inversion H as [|? ? Hq _]; subst. vm_compute in Hq. discriminate.
Qed.

Lemma C2_reachable_lines_well_formed_witness :
  let w0 := freshWorld true in
  let snapshot := [ {| product := product_1; quantity := 2%float |} ] in
  let w := after (updateQuantity "1" 5%float)
             (after (addItem product_3)
                (after (dispatch (LOAD_CART snapshot)) w0)) in
  Forall (fun line => (1 <=? quantity line)%float = true) (items (state w)) /\
  NoDup (lineIds (items (state w))).
Proof.
  intros w0 snapshot w.
  apply (C2_reachable_lines_well_formed w0 w).
  - split; constructor.
  - apply reach_updateQuantity; [right; reflexivity|].
    apply reach_addItem, reach_load; [|apply reach_start].
    split.
    + repeat constructor.
    + repeat constructor. simpl. intros H. inversion H.
Defined.

(** C3 as stated fails where the quantity is 2^53: the binary64 sum of
    2^53 and 1 is 2^53.  After [addItem] of product 1 and [updateQuantity]
    of it to 9007199254740992, a further [addItem] of product 1, which is in
    stock and in the cart, leaves the cart state as it was. *)
Lemma C3_increment_lost_counterexample :
  let w := after (updateQuantity "1" 9007199254740992%float)
             (after (addItem product_1) (freshWorld true)) in
  inStock product_1 = true /\
  items (state w) =
    [ {| product := product_1; quantity := 9007199254740992%float |} ] /\
  state (after (addItem product_1) w) = state w.
Proof.
  simpl. split; [reflexivity|]. split; vm_compute; reflexivity.
Qed.

(** A store that holds one line, product 3 with quantity 4. *)
Lemma C3_addItem_appends_or_increments_witness :
  let w := after (dispatch (LOAD_CART [ {| product := product_3; quantity := 4%float |} ]))
                 (freshWorld true) in
  items (state (after (addItem product_1) w)) =
    [ {| product := product_3; quantity := 4%float |};
      {| product := product_1; quantity := 1%float |} ] /\
  items (state (after (addItem product_3) w)) !! 0%nat =
    Some {| product := product_3; quantity := whole (4 + 1) |}.
Proof.
  intros w. split.
  - destruct (C3_addItem_appends_or_increments w product_1 eq_refl)
      as [Happend _].
    apply Happend. intros line [<- | []]. discriminate.
  - destruct (C3_addItem_appends_or_increments w product_3 eq_refl)
      as (_ & Hincrement & _).
    destruct Hincrement as [_ Hlines].
    + eexists. split; [left; reflexivity | reflexivity].
    + destruct (Hlines 0%nat {| product := product_3; quantity := 4%float |}
                  eq_refl) as [Hsame _].
      destruct (Hsame eq_refl) as [_ Hwhole].
      apply (Hwhole 4); [lia | reflexivity].
Defined.

(** A snapshot that is not well formed, then a fractional quantity. *)
Lemma totals_agree_through_hydration_witness :
  let w0 := freshWorld true in
  let snapshot := [ {| product := product_1; quantity := 0%float |};
                    {| product := product_1; quantity := 3%float |} ] in
  let w := after (updateQuantity "1" 0.5%float)
             (after (addItem product_1)
                (after (dispatch (LOAD_CART snapshot)) w0)) in
  totalItems (state w) = sum (List.map quantity (items (state w))) /\
  totalPrice (state w) =
    sum (List.map (fun line => (price (product line) * quantity line)%float)
                  (items (state w))).
Proof.
  intros w0 snapshot w.
  apply (totals_agree_through_hydration w0 w).
  - split; reflexivity.
  - apply reach_updateQuantity; [exact I|].
    apply reach_addItem, reach_load; [exact I | apply reach_start].
Defined.

(** A store that holds product 1 twice over and product 3 once. *)
Lemma handleIncrement_handleDecrement_inverse_witness :
  let w := after (addItem product_3)
             (after (addItem product_1)
                (after (addItem product_1) (freshWorld true))) in
  items (state (after (CartScreen.handleDecrement "1" (whole 2 + 1)%float)
                  (after (CartScreen.handleIncrement "1" (whole 2)) w))) =
    items (state w) /\
  (1 < 2 ->
   items (state (after (CartScreen.handleIncrement "1" (whole 2 - 1)%float)
                   (after (CartScreen.handleDecrement "1" (whole 2)) w))) =
     items (state w)).
Proof.
  intros w. apply (handleIncrement_handleDecrement_inverse w "1" 2); [lia|].
  intros line [<- | [<- | []]]; [reflexivity | discriminate].
Defined.

Lemma addItem_raises_quantity_read_witness :
  let w := after (addItem product_3)
             (after (addItem product_1)
                (after (addItem product_1) (freshWorld true))) in
  isInCart (state (after (addItem product_1) w)) "1" = true /\
  getItemQuantity (state w) "1" = whole 2 /\
  getItemQuantity (state (after (addItem product_1) w)) "1" = whole (2 + 1).
Proof.
  intros w. apply (addItem_raises_quantity_read w product_1 2).
  - reflexivity.
  - lia.
  - reflexivity.
Defined.

End Float64Examples.

(** ** The cart on whole quantities and exact prices *)

(** *** Finding a line *)

Section WellFormedLines.

Implicit Types (lines : list CartItem) (pid : string).

Lemma find_id_Some lines pid line :
  List.find (fun item => String.eqb (id (product item)) pid) lines = Some line ->
  In line lines /\ id (product line) = pid.
Proof.
  intros Hfind. apply List.find_some in Hfind as [Hin E].
  split; [exact Hin | apply String.eqb_eq, E].
Qed.

End WellFormedLines.

(** ** Line-by-line effect of the mapping cases *)

Section Lines.

Implicit Types (lines : list CartItem) (pid : string).

Lemma lookup_map lines (f : CartItem -> CartItem) (i : nat) :
  List.map f lines !! i = f <$> lines !! i.
Proof.
  revert i. induction lines as [|line rest IH]; intros [|i]; simpl; auto.
Qed.

Lemma map_untouched lines (test : CartItem -> bool) (f : CartItem -> CartItem) :
  (forall line, In line lines -> test line = false) ->
  List.map (fun item => if test item then f item else item) lines = lines.
Proof.
  induction lines as [|line rest IH]; simpl; intros Hno; [reflexivity|].
  rewrite (Hno line) by (left; reflexivity).
  rewrite IH; [reflexivity|]. intros other Hin. apply Hno. right. exact Hin.
Qed.

End Lines.

(** ** The public actions *)

Section Actions.

Context {Disk : Type}.
Implicit Types (w : World Disk) (pid : string).

(** C4: for a product that is out of stock, [addItem] returns normally,
    leaves the cart state (and the device store) as it was and writes one
    entry to the error console, reporting a validation error. *)
Theorem C4_addItem_out_of_stock_rejected w (P : Product) :
  inStock P = false ->
  fst (addItem P w) = Normal tt /\
  state (after (addItem P) w) = state w /\
  disk (after (addItem P) w) = disk w /\
  exists entry,
    console (after (addItem P) w) = console w ++ [entry] /\
    reports VALIDATION entry.
Proof.
  intros Hstock. unfold after, addItem. rewrite Hstock. simpl.
  repeat split.
  eexists. split; [reflexivity|].
  destruct (__DEV__ w); reflexivity.
Qed.

Lemma updateQuantity_zero pid w :
  updateQuantity pid 0 w = removeItem pid w.
Proof. reflexivity. Qed.

(** C5: [updateQuantity id 0] leaves the same cart state (lines,
    [totalItems], [totalPrice]) as [removeItem id]. *)
Theorem C5_updateQuantity_zero_is_removeItem w pid :
  state (after (updateQuantity pid 0) w) = state (after (removeItem pid) w).
Proof. unfold after. rewrite updateQuantity_zero. reflexivity. Qed.

(** C6: for a negative quantity, [updateQuantity] returns normally, leaves
    the cart state (and the device store) as it was and writes one entry
    to the error console, reporting a validation error. *)
Theorem C6_updateQuantity_negative_rejected w pid (q : Z) :
  q < 0 ->
  fst (updateQuantity pid q w) = Normal tt /\
  state (after (updateQuantity pid q) w) = state w /\
  disk (after (updateQuantity pid q) w) = disk w /\
  exists entry,
    console (after (updateQuantity pid q) w) = console w ++ [entry] /\
    reports VALIDATION entry.
Proof.
  intros Hq. apply Z.ltb_lt in Hq.
  unfold after, updateQuantity. rewrite Hq. simpl.
  repeat split.
  eexists. split; [reflexivity|].
  destruct (__DEV__ w); reflexivity.
Qed.

(** C7: for a positive quantity [q], [updateQuantity id q] leaves the lines
    as they were when no line carries [id] (it never creates a line); when
    one does, it keeps the number and order of the lines, sets the
    quantity of the line carrying [id] to [q] itself and leaves every other
    line as it was. *)
Theorem C7_updateQuantity_positive_sets_exactly w pid (q : Z) :
  0 < q ->
  let lines := items (state w) in
  let lines' := items (state (after (updateQuantity pid q) w)) in
  ((forall line, In line lines -> id (product line) <> pid) ->
   lines' = lines) /\
  ((exists line, In line lines /\ id (product line) = pid) ->
   length lines' = length lines /\
   forall (i : nat) (line : CartItem),
     lines !! i = Some line ->
     (id (product line) = pid ->
      lines' !! i = Some {| product := product line; quantity := q |}) /\
     (id (product line) <> pid -> lines' !! i = Some line)).
Proof.
  intros Hq lines lines'. subst lines lines'.
  unfold after, updateQuantity.
  assert ((q <? 0) = false) as -> by (apply Z.ltb_ge; lia).
  simpl.
  assert ((q <=? 0) = false) as -> by (apply Z.leb_gt; lia).
  simpl. split.
  - intros Habsent. apply map_untouched.
    intros line Hin. apply String.eqb_neq, Habsent, Hin.
  - intros _. split; [apply List.length_map|].
    intros i line Hi. rewrite lookup_map, Hi. simpl.
    split; intros E.
    + apply String.eqb_eq in E. rewrite E. reflexivity.
    + apply String.eqb_neq in E. rewrite E. reflexivity.
Qed.

(** C10: none of [addItem], [removeItem], [updateQuantity] and [clearCart]
    changes the loading flag, and an action of the reducer that changes it
    is [LOAD_CART] or [SET_LOADING]. *)
Theorem C10_loading_flag_frame :
  (forall (c : Call) w,
     isLoading (state (after (perform c) w)) = isLoading (state w)) /\
  (forall (s : CartState) (a : CartAction),
     isLoading (cartReducer s a) <> isLoading s ->
     (exists payload, a = LOAD_CART payload) \/
     (exists b, a = SET_LOADING b)).
Proof.
  split.
  - intros c w. destruct c as [p|pid|pid q|]; unfold after; simpl.
    + unfold addItem. destruct (inStock p); reflexivity.
    + reflexivity.
    + unfold updateQuantity.
      destruct (q <? 0); simpl; [reflexivity|].
      destruct (q <=? 0); reflexivity.
    + reflexivity.
  - intros s a Hchanged.
    destruct a as [p|pid|pid q| |payload|b]; simpl in Hchanged.
    + contradiction.
    + contradiction.
    + destruct (q <=? 0); contradiction.
    + contradiction.
    + left. eexists. reflexivity.
    + right. eexists. reflexivity.
Qed.

End Actions.

(** ** The priced scenario *)



(** The same four totals in binary64 arithmetic, on the lines the scenario
    passes through: the decimal literals below denote the nearest binary64
    values, and the reducer's sums hit them exactly. *)
Module Binary64Scenario.

Import PrimFloat.

#[warnings="-inexact-float"]
Lemma Binary64_priced_scenario :
  (Binary64.reducePrice [(129.99, 1)] = 129.99 /\
   Binary64.reducePrice [(129.99, 2)] = 259.98 /\
   Binary64.reducePrice [(129.99, 5)] = 649.95 /\
   Binary64.reducePrice [] = 0 /\
   Binary64.reduceQuantity [(129.99, 1)] = 1 /\
   Binary64.reduceQuantity [(129.99, 2)] = 2 /\
   Binary64.reduceQuantity [(129.99, 5)] = 5 /\
   Binary64.reduceQuantity [] = 0)%float.
Proof. repeat split; reflexivity. Qed.

End Binary64Scenario.

(** ** Persisting and hydrating *)

Section Persistence.

Context {Disk : Type} `{!AsyncStorageAPI Disk} `{!JSONCodec (list CartItem)}.
Implicit Types (w : World Disk) (lines : list CartItem).

(** When [storage.setItem] resolves to [true], the value was serialized, the
    device accepted the text under the key, and nothing else changed. *)
Lemma storage_setItem_true (key : string) lines w :
  fst (storage_setItem key lines w) = Normal true ->
  exists (jsonValue : string) (d' : Disk),
    JSON_stringify lines = Normal jsonValue /\
    AsyncStorage_setItem key jsonValue (disk w) = (Normal tt, d') /\
    after (storage_setItem key lines) w =
      {| __DEV__ := __DEV__ w; console := console w; disk := d';
         state := state w |}.
Proof.
  unfold after, storage_setItem, tryCatch, mbind, mret, JS_bind, JS_ret,
    lift, await_AsyncStorage_setItem, logError.
  destruct (JSON_stringify lines) as [jsonValue|e]; simpl.
  - destruct (AsyncStorage_setItem key jsonValue (disk w)) as [[[]|e] d'] eqn:Hset;
      simpl; intros Hret.
    + exists jsonValue, d'. auto.
    + discriminate.
  - intros Hret. discriminate.
Qed.

(** The wrapper and the two effects absorb every throw of the collaborators:
    they always return. *)
Lemma storage_setItem_returns (key : string) lines w :
  exists b : bool, fst (storage_setItem key lines w) = Normal b.
Proof.
  unfold storage_setItem, tryCatch, mbind, mret, JS_bind, JS_ret,
    lift, await_AsyncStorage_setItem, logError.
  destruct (JSON_stringify lines) as [jsonValue|e]; simpl; [|eauto].
  destruct (AsyncStorage_setItem key jsonValue (disk w)) as [[[]|e] d'];
    simpl; eauto.
Qed.

Lemma storage_getItem_returns (key : string) w :
  exists saved : option (list CartItem),
    fst (storage_getItem key w) = Normal saved.
Proof.
  unfold storage_getItem, tryCatch, mbind, mret, JS_bind, JS_ret,
    lift, await_AsyncStorage_getItem, logError.
  destruct (AsyncStorage_getItem key (disk w)) as [[jsonValue|]|e]; simpl; eauto.
  destruct (JSON_parse jsonValue) as [saved|e]; simpl; eauto.
Qed.

Lemma saveCart_returns w : fst (saveCart w) = Normal tt.
Proof.
  unfold saveCart. destruct (negb (isLoading (state w))); [|reflexivity].
  unfold mbind, mret, JS_bind, JS_ret.
  destruct (storage_setItem_returns STORAGE_KEYS.CART (items (state w)) w)
    as [b Hb].
  destruct (storage_setItem STORAGE_KEYS.CART (items (state w)) w) as [c w'].
  simpl in Hb. subst c. reflexivity.
Qed.

Lemma loadCart_returns w : fst (loadCart w) = Normal tt.
Proof.
  unfold loadCart, tryCatch, mbind, mret, JS_bind, JS_ret.
  destruct (storage_getItem_returns STORAGE_KEYS.CART w) as [saved Hsaved].
  destruct (storage_getItem STORAGE_KEYS.CART w) as [c w'].
  simpl in Hsaved. subst c. destruct saved; reflexivity.
Qed.

(** Hydration of a fresh store over a device that holds, under the cart
    key, text that parses to [lines]. *)
Lemma loadCart_adopts (dev : bool) (d : Disk) (jsonValue : string) lines :
  AsyncStorage_getItem STORAGE_KEYS.CART d = Normal (Some jsonValue) ->
  JSON_parse jsonValue = Normal (Some lines) ->
  loadCart (freshWorld dev d) =
    (Normal tt,
     {| __DEV__ := dev; console := []; disk := d;
        state := cartReducer initialState (LOAD_CART lines) |}).
Proof.
  intros Hget Hparse.
  unfold loadCart, storage_getItem, tryCatch, mbind, mret, JS_bind, JS_ret,
    lift, await_AsyncStorage_getItem. simpl.
  rewrite Hget. simpl. rewrite Hparse. reflexivity.
Qed.

(** C8: when the save effect of a store that is not loading wrote its lines
    ([storage.setItem] resolved to [true]), a fresh store that runs its mount
    effect over the device so left holds the same lines: the same products
    with the same quantities in the same order.  The device store is assumed
    to read back what was written under a key, and [JSON.parse] to invert
    [JSON.stringify] on these lines. *)
Theorem C8_persist_then_hydrate `{!AsyncStorageLaws Disk} w (dev : bool) :
  (forall jsonValue,
     JSON_stringify (items (state w)) = Normal jsonValue ->
     JSON_parse jsonValue = Normal (Some (items (state w)))) ->
  isLoading (state w) = false ->
  fst (storage_setItem STORAGE_KEYS.CART (items (state w)) w) = Normal true ->
  let saved := after saveCart w in
  let hydrated := after loadCart (freshWorld dev (disk saved)) in
  items (state hydrated) = items (state w) /\
  isLoading (state hydrated) = false.
Proof.
  intros Hjson Hready Hwrote saved hydrated.
  destruct (storage_setItem_true _ _ _ Hwrote) as (jsonValue & d' & Htext & Hset & Hafter).
  assert (disk saved = d') as Hdisk.
  { subst saved. unfold after, saveCart. rewrite Hready. simpl.
    unfold mbind, mret, JS_bind, JS_ret.
    unfold after in Hafter.
    destruct (storage_setItem STORAGE_KEYS.CART (items (state w)) w) as [[b|e] w'];
      simpl in *; subst w'; reflexivity. }
  subst hydrated. unfold after. rewrite Hdisk.
  rewrite (loadCart_adopts dev d' jsonValue (items (state w))).
  - split; reflexivity.
  - apply (getItem_after_setItem _ _ _ _ Hset).
  - apply Hjson, Htext.
Qed.

End Persistence.

Lemma memory_laws : @AsyncStorageLaws (gmap string string) Device.memory.
Proof.
  constructor. intros key jsonValue d d' Hset. simpl in *.
  injection Hset as <-. f_equal. apply lookup_insert_eq.
Qed.

Lemma C8_persist_then_hydrate_witness :
  let lines := [ {| product := products.product_1; quantity := 2 |};
                 {| product := products.product_3; quantity := 1 |} ] in
  let w : World (gmap string string) :=
    after (dispatch (LOAD_CART lines)) (freshWorld false ∅) in
  let saved := after (@saveCart _ Device.memory Device.JSON_lines) w in
  let hydrated :=
    after (@loadCart _ Device.memory Device.JSON_lines)
          (freshWorld true (disk saved)) in
  items (state hydrated) = lines /\ isLoading (state hydrated) = false.
Proof.
  intros lines w.
  apply (@C8_persist_then_hydrate _ Device.memory Device.JSON_lines memory_laws w true).
  - intros jsonValue Htext. vm_compute in Htext.
    injection Htext as <-. vm_compute. reflexivity.
  - reflexivity.
  - vm_compute. reflexivity.
Defined.

(** ** The theorems at concrete inputs *)

Lemma C4_addItem_out_of_stock_rejected_witness :
  let w := freshWorld false tt in
  fst (addItem products.product_8 w) = Normal tt /\
  state (after (addItem products.product_8) w) = state w /\
  disk (after (addItem products.product_8) w) = disk w /\
  exists entry,
    console (after (addItem products.product_8) w) = console w ++ [entry] /\
    reports VALIDATION entry.
Proof.
  apply (C4_addItem_out_of_stock_rejected (freshWorld false tt) products.product_8).
  reflexivity.
Defined.

Lemma C6_updateQuantity_negative_rejected_witness :
  let w := after (addItem products.product_1) (freshWorld true tt) in
  fst (updateQuantity "1" (-1) w) = Normal tt /\
  state (after (updateQuantity "1" (-1)) w) = state w /\
  disk (after (updateQuantity "1" (-1)) w) = disk w /\
  exists entry,
    console (after (updateQuantity "1" (-1)) w) = console w ++ [entry] /\
    reports VALIDATION entry.
Proof.
  intros w. apply (C6_updateQuantity_negative_rejected w "1" (-1)). lia.
Defined.

Lemma C7_updateQuantity_positive_sets_exactly_witness :
  let w := after (addItem products.product_3)
             (after (addItem products.product_1) (freshWorld true tt)) in
  items (state (after (updateQuantity "8" 7) w)) = items (state w) /\
  items (state (after (updateQuantity "3" 7) w)) !! 1%nat =
    Some {| product := products.product_3; quantity := 7 |} /\
  items (state (after (updateQuantity "3" 7) w)) !! 0%nat =
    Some {| product := products.product_1; quantity := 1 |}.
Proof.
  intros w. split; [|split].
  - destruct (C7_updateQuantity_positive_sets_exactly w "8" 7 ltac:(lia))
      as [Habsent _].
    apply Habsent. intros line [<- | [<- | []]]; discriminate.
  - destruct (C7_updateQuantity_positive_sets_exactly w "3" 7 ltac:(lia))
      as [_ Hpresent].
    destruct Hpresent as [_ Hlines].
    + eexists. split; [right; left; reflexivity | reflexivity].
    + apply (Hlines 1%nat {| product := products.product_3; quantity := 1 |});
        reflexivity.
  - destruct (C7_updateQuantity_positive_sets_exactly w "3" 7 ltac:(lia))
      as [_ Hpresent].
    destruct Hpresent as [_ Hlines].
    + eexists. split; [right; left; reflexivity | reflexivity].
    + apply (Hlines 0%nat {| product := products.product_1; quantity := 1 |});
        [reflexivity | discriminate].
Defined.

(** Hydration through the mount effect itself: a device whose cart key holds
    the text of a snapshot with product 1 twice, once with quantity 0, is
    adopted as it is. *)
Lemma loadCart_adopts_malformed_snapshot :
  let snapshot := [ {| product := products.product_1; quantity := 0 |};
                    {| product := products.product_1; quantity := 3 |} ] in
  let jsonValue :=
    match @JSON_stringify _ Device.JSON_lines snapshot with
    | Normal text => text
    | Thrown _ => EmptyString
    end in
  let d : gmap string string := {[ STORAGE_KEYS.CART := jsonValue ]} in
  let hydrated :=
    after (@loadCart _ Device.memory Device.JSON_lines) (freshWorld true d) in
  items (state hydrated) = snapshot /\
  isLoading (state hydrated) = false /\
  console hydrated = [].
Proof. vm_compute. repeat split. Qed.

(** * Further properties of the cart *)

(** ** The two reads *)

Section Reads.

Implicit Types (lines : list CartItem) (pid : string) (s : CartState).

Lemma getItemQuantity_find s pid :
  getItemQuantity s pid =
    match List.find (fun item => String.eqb (id (product item)) pid) (items s) with
    | Some found => quantity found
    | None => 0
    end.
Proof.
  unfold getItemQuantity.
  destruct (List.find _ (items s)) as [found|]; [|reflexivity].
  destruct (Z.eqb_spec (quantity found) 0) as [E|_]; [symmetry; exact E | reflexivity].
Qed.

Lemma isInCart_find s pid :
  isInCart s pid =
    match List.find (fun item => String.eqb (id (product item)) pid) (items s) with
    | Some _ => true
    | None => false
    end.
Proof.
  unfold isInCart. induction (items s) as [|line rest IH]; simpl; [reflexivity|].
  destruct (String.eqb (id (product line)) pid); [reflexivity | exact IH].
Qed.

Lemma isInCart_true s pid :
  isInCart s pid = true <->
  exists line, In line (items s) /\ id (product line) = pid.
Proof.
  unfold isInCart. rewrite List.existsb_exists.
  split; intros (line & Hin & E); exists line; split; auto;
    apply String.eqb_eq; exact E.
Qed.

Lemma find_map_quantity lines pid (test : CartItem -> bool) (f : CartItem -> Z) :
  List.find (fun item => String.eqb (id (product item)) pid)
    (List.map
       (fun item =>
          if test item
          then {| product := product item; quantity := f item |}
          else item)
       lines) =
  (fun found =>
     if test found
     then {| product := product found; quantity := f found |}
     else found)
    <$> List.find (fun item => String.eqb (id (product item)) pid) lines.
Proof.
  induction lines as [|line rest IH]; simpl; [reflexivity|].
  destruct (test line) eqn:Et; simpl;
    destruct (String.eqb (id (product line)) pid) eqn:E; simpl;
    rewrite ?Et; auto.
Qed.

Lemma find_filter_other lines pid other :
  other <> pid ->
  List.find (fun item => String.eqb (id (product item)) other)
    (List.filter (fun item => negb (String.eqb (id (product item)) pid)) lines) =
  List.find (fun item => String.eqb (id (product item)) other) lines.
Proof.
  intros Hne. induction lines as [|line rest IH]; simpl; [reflexivity|].
  destruct (String.eqb_spec (id (product line)) pid) as [E|E]; simpl.
  - destruct (String.eqb_spec (id (product line)) other) as [E'|_]; [congruence|].
    exact IH.
  - destruct (String.eqb (id (product line)) other); [reflexivity | exact IH].
Qed.

Lemma find_filter_same lines pid :
  List.find (fun item => String.eqb (id (product item)) pid)
    (List.filter (fun item => negb (String.eqb (id (product item)) pid)) lines) =
  None.
Proof.
  induction lines as [|line rest IH]; simpl; [reflexivity|].
  destruct (String.eqb (id (product line)) pid) eqn:E; simpl; [exact IH|].
  rewrite E. exact IH.
Qed.

Lemma find_snoc lines pid (line : CartItem) :
  List.find (fun item => String.eqb (id (product item)) pid) (lines ++ [line]) =
  match List.find (fun item => String.eqb (id (product item)) pid) lines with
  | Some found => Some found
  | None => if String.eqb (id (product line)) pid then Some line else None
  end.
Proof.
  induction lines as [|first rest IH]; simpl.
  - destruct (String.eqb (id (product line)) pid); reflexivity.
  - destruct (String.eqb (id (product first)) pid); [reflexivity | exact IH].
Qed.

(** X1: when every line has quantity at least 1, a product is in the cart
    exactly when its quantity read is at least 1. *)
Theorem isInCart_iff_positive_quantity s pid :
  Forall (fun line => 1 <= quantity line) (items s) ->
  (isInCart s pid = true <-> 1 <= getItemQuantity s pid).
Proof.
  intros Hq. rewrite isInCart_find, getItemQuantity_find.
  destruct (List.find _ (items s)) as [found|] eqn:Hfind.
  - apply List.find_some in Hfind as [Hin _].
    rewrite List.Forall_forall in Hq. apply Hq in Hin.
    split; [intros _; exact Hin | reflexivity].
  - split; [discriminate | lia].
Qed.

End Reads.

Lemma isInCart_iff_positive_quantity_witness :
  let s := cartReducer (cartReducer initialState (ADD_ITEM products.product_1))
                       (ADD_ITEM products.product_1) in
  isInCart s "1" = true <-> 1 <= getItemQuantity s "1".
Proof.
  intros s. apply (isInCart_iff_positive_quantity s "1").
  repeat constructor. simpl. lia.
Defined.

(** Without that hypothesis the two reads disagree: a hydrated line of
    quantity 0 is in the cart and reads as 0. *)
Lemma isInCart_with_zero_quantity :
  let s := cartReducer initialState
             (LOAD_CART [ {| product := products.product_1; quantity := 0 |} ]) in
  isInCart s "1" = true /\ getItemQuantity s "1" = 0.
Proof. split; reflexivity. Qed.

(** ** How the calls act on the reads and on each other *)

Section CartAlgebra.

Context {Disk : Type}.
Implicit Types (w : World Disk) (pid : string) (lines : list CartItem).

Lemma addItem_in_stock (P : Product) w :
  inStock P = true ->
  state (after (addItem P) w) = cartReducer (state w) (ADD_ITEM P).
Proof. intros Hstock. unfold after, addItem. rewrite Hstock. reflexivity. Qed.

Lemma removeItem_state pid w :
  state (after (removeItem pid) w) = reduceRemoveItem (state w) pid.
Proof. reflexivity. Qed.

Lemma updateQuantity_positive pid (q : Z) w :
  0 < q ->
  state (after (updateQuantity pid q) w) =
    withItems (state w)
      (List.map
         (fun item =>
            if String.eqb (id (product item)) pid
            then {| product := product item; quantity := q |}
            else item)
         (items (state w))).
Proof.
  intros Hq. unfold after, updateQuantity.
  assert ((q <? 0) = false) as -> by (apply Z.ltb_ge; lia). simpl.
  assert ((q <=? 0) = false) as -> by (apply Z.leb_gt; lia). reflexivity.
Qed.

Lemma reads_of_find (s s' : CartState) pid :
  List.find (fun item => String.eqb (id (product item)) pid) (items s') =
  List.find (fun item => String.eqb (id (product item)) pid) (items s) ->
  isInCart s' pid = isInCart s pid /\
  getItemQuantity s' pid = getItemQuantity s pid.
Proof.
  intros E. rewrite !isInCart_find, !getItemQuantity_find, E. split; reflexivity.
Qed.

Lemma find_map_other lines pid other (f : CartItem -> Z) :
  other <> pid ->
  List.find (fun item => String.eqb (id (product item)) other)
    (List.map
       (fun item =>
          if String.eqb (id (product item)) pid
          then {| product := product item; quantity := f item |}
          else item)
       lines) =
  List.find (fun item => String.eqb (id (product item)) other) lines.
Proof.
  intros Hne. rewrite find_map_quantity.
  destruct (List.find _ lines) as [found|] eqn:Hfind; [|reflexivity].
  simpl. apply find_id_Some in Hfind as [_ E].
  destruct (String.eqb_spec (id (product found)) pid) as [E'|_]; [congruence|].
  reflexivity.
Qed.

(** X3: a call about one product never changes what the two reads return
    for a product with another identifier. *)
Theorem calls_leave_other_products_alone w (other : string) :
  (forall P : Product,
     id P <> other ->
     isInCart (state (after (addItem P) w)) other = isInCart (state w) other /\
     getItemQuantity (state (after (addItem P) w)) other =
       getItemQuantity (state w) other) /\
  (forall pid,
     pid <> other ->
     isInCart (state (after (removeItem pid) w)) other = isInCart (state w) other /\
     getItemQuantity (state (after (removeItem pid) w)) other =
       getItemQuantity (state w) other) /\
  (forall pid (q : Z),
     pid <> other ->
     isInCart (state (after (updateQuantity pid q) w)) other =
       isInCart (state w) other /\
     getItemQuantity (state (after (updateQuantity pid q) w)) other =
       getItemQuantity (state w) other).
Proof.
  split; [|split].
  - intros P Hne. apply reads_of_find.
    unfold after, addItem. destruct (inStock P); simpl; [|reflexivity].
    destruct (List.find (fun item => String.eqb (id (product item)) (id P))
                        (items (state w))) as [found|] eqn:Hfind.
    + apply find_map_other. congruence.
    + rewrite find_snoc. simpl.
      destruct (List.find (fun item => String.eqb (id (product item)) other)
                          (items (state w))); [reflexivity|].
      destruct (String.eqb_spec (id P) other); [contradiction | reflexivity].
  - intros pid Hne. apply reads_of_find. simpl.
    apply find_filter_other. congruence.
  - intros pid q Hne. apply reads_of_find.
    unfold after, updateQuantity. destruct (q <? 0); simpl; [reflexivity|].
    destruct (q <=? 0); simpl.
    + apply find_filter_other. congruence.
    + apply find_map_other. congruence.
Qed.

Lemma filter_untouched lines pid :
  (forall line, In line lines -> id (product line) <> pid) ->
  List.filter (fun item => negb (String.eqb (id (product item)) pid)) lines = lines.
Proof.
  induction lines as [|line rest IH]; simpl; intros Hno; [reflexivity|].
  destruct (String.eqb_spec (id (product line)) pid) as [E|_].
  - exfalso. apply (Hno line); [left; reflexivity | exact E].
  - simpl. f_equal. apply IH. intros other Hin. apply Hno. right. exact Hin.
Qed.

Lemma filter_filter_same lines pid :
  List.filter (fun item => negb (String.eqb (id (product item)) pid))
    (List.filter (fun item => negb (String.eqb (id (product item)) pid)) lines) =
  List.filter (fun item => negb (String.eqb (id (product item)) pid)) lines.
Proof.
  apply filter_untouched. intros line Hin.
  apply List.filter_In in Hin as [_ E].
  apply Bool.negb_true_iff, String.eqb_neq in E. exact E.
Qed.

(** X4: [removeItem] takes the product out of the cart (both reads say so),
    removes nothing when the product was not in it, and doing it twice is
    the same as doing it once. *)
Theorem removeItem_removes_once w pid :
  isInCart (state (after (removeItem pid) w)) pid = false /\
  getItemQuantity (state (after (removeItem pid) w)) pid = 0 /\
  (isInCart (state w) pid = false ->
   items (state (after (removeItem pid) w)) = items (state w)) /\
  state (after (removeItem pid) (after (removeItem pid) w)) =
    state (after (removeItem pid) w).
Proof.
  rewrite isInCart_find, getItemQuantity_find. simpl.
  rewrite find_filter_same. repeat split.
  - intros Habsent. apply filter_untouched. intros line Hin E.
    assert (isInCart (state w) pid = true) as Htrue
      by (apply isInCart_true; eauto).
    congruence.
  - unfold reduceRemoveItem. simpl. rewrite filter_filter_same. reflexivity.
Qed.

Lemma filter_map_same lines pid (f : CartItem -> Z) :
  List.filter (fun item => negb (String.eqb (id (product item)) pid))
    (List.map
       (fun item =>
          if String.eqb (id (product item)) pid
          then {| product := product item; quantity := f item |}
          else item)
       lines) =
  List.filter (fun item => negb (String.eqb (id (product item)) pid)) lines.
Proof.
  induction lines as [|line rest IH]; simpl; [reflexivity|].
  destruct (String.eqb (id (product line)) pid) eqn:E; simpl; rewrite E; simpl.
  - exact IH.
  - f_equal. exact IH.
Qed.

Lemma removeItem_after_addItem w (P : Product) :
  state (after (removeItem (id P)) (after (addItem P) w)) =
    state (after (removeItem (id P)) w).
Proof.
  rewrite !removeItem_state.
  unfold after, addItem. destruct (inStock P); simpl; [|reflexivity].
  unfold reduceRemoveItem. simpl.
  destruct (List.find _ (items (state w))) as [found|] eqn:Hfind.
  - rewrite filter_map_same. reflexivity.
  - rewrite List.filter_app. simpl. rewrite String.eqb_refl. simpl.
    rewrite List.app_nil_r. reflexivity.
Qed.

Lemma removeItem_after_updateQuantity w pid (q : Z) :
  state (after (removeItem pid) (after (updateQuantity pid q) w)) =
    state (after (removeItem pid) w).
Proof.
  rewrite !removeItem_state.
  unfold after, updateQuantity. destruct (q <? 0); simpl; [reflexivity|].
  unfold reduceRemoveItem.
  destruct (q <=? 0); simpl.
  - rewrite filter_filter_same. reflexivity.
  - rewrite filter_map_same. reflexivity.
Qed.

(** X5: [removeItem] forgets what was done to the product before: after
    [addItem] of a product or after any [updateQuantity] of an identifier,
    removing that identifier gives the state that removing it at once would
    have given. *)
Theorem removeItem_absorbs_earlier_calls w :
  (forall P : Product,
     state (after (removeItem (id P)) (after (addItem P) w)) =
       state (after (removeItem (id P)) w)) /\
  (forall pid (q : Z),
     state (after (removeItem pid) (after (updateQuantity pid q) w)) =
       state (after (removeItem pid) w)).
Proof.
  split.
  - intros P. apply removeItem_after_addItem.
  - intros pid q. apply removeItem_after_updateQuantity.
Qed.

Lemma map_set_quantity_twice lines pid (q1 q2 : Z) :
  List.map
    (fun item =>
       if String.eqb (id (product item)) pid
       then {| product := product item; quantity := q2 |}
       else item)
    (List.map
       (fun item =>
          if String.eqb (id (product item)) pid
          then {| product := product item; quantity := q1 |}
          else item)
       lines) =
  List.map
    (fun item =>
       if String.eqb (id (product item)) pid
       then {| product := product item; quantity := q2 |}
       else item)
    lines.
Proof.
  rewrite List.map_map. apply List.map_ext. intros line.
  destruct (String.eqb (id (product line)) pid) eqn:E; simpl; rewrite E;
    reflexivity.
Qed.

(** X6: of two [updateQuantity] calls on one identifier, the first with a
    positive quantity and the second with a quantity that is not negative,
    only the second counts. *)
Theorem updateQuantity_last_write_wins w pid (q1 q2 : Z) :
  0 < q1 -> 0 <= q2 ->
  state (after (updateQuantity pid q2) (after (updateQuantity pid q1) w)) =
    state (after (updateQuantity pid q2) w).
Proof.
  intros H1 H2.
  destruct (Z.eq_dec q2 0) as [->|Hne].
  - unfold after at 1 3. rewrite !updateQuantity_zero.
    apply removeItem_after_updateQuantity.
  - rewrite !(updateQuantity_positive pid q2) by lia.
    rewrite (updateQuantity_positive pid q1 w H1). simpl.
    rewrite map_set_quantity_twice. reflexivity.
Qed.

End CartAlgebra.

(** ** The handlers of the screens *)

Section Handlers.

Context {Disk : Type}.
Implicit Types (w : World Disk) (pid : string) (lines : list CartItem).

Lemma find_unique lines pid (found : CartItem) :
  NoDup (lineIds lines) ->
  List.find (fun item => String.eqb (id (product item)) pid) lines = Some found ->
  forall line, In line lines -> id (product line) = pid -> line = found.
Proof.
  induction lines as [|first rest IH]; simpl; intros Hnd Hfind line Hin E;
    [contradiction|].
  inversion Hnd as [|? ? Hnotin Hrest]; subst.
  destruct (String.eqb_spec (id (product first)) (id (product line))) as [E'|E'].
  - injection Hfind as <-.
    destruct Hin as [->|Hin]; [reflexivity|].
    exfalso. apply Hnotin, list_elem_of_In, List.in_map_iff.
    exists line. split; [congruence | exact Hin].
  - destruct Hin as [->|Hin]; [congruence|].
    apply (IH Hrest Hfind line Hin eq_refl).
Qed.

(** X12: on the product screen of a product in stock, in a cart whose
    lines are well formed, the plus button does what [addItem] does when the
    product is in the cart, and changes no line when it is not (it never
    creates the line). *)
Theorem ProductScreen_handleIncrement_vs_addItem w (P : Product) :
  WellFormed (items (state w)) ->
  inStock P = true ->
  (isInCart (state w) (id P) = true ->
   state (after (ProductScreen.handleIncrement P) w) =
     state (after (addItem P) w)) /\
  (isInCart (state w) (id P) = false ->
   items (state (after (ProductScreen.handleIncrement P) w)) = items (state w)).
Proof.
  intros [Hq Hnd] Hstock.
  unfold ProductScreen.handleIncrement, after at 1 3.
  fold (after (updateQuantity (id P) (getItemQuantity (state w) (id P) + 1)) w).
  rewrite isInCart_find, getItemQuantity_find.
  destruct (List.find (fun item => String.eqb (id (product item)) (id P))
                      (items (state w))) as [found|] eqn:Hfind.
  - split; [intros _ | discriminate].
    assert (1 <= quantity found) as Hfound.
    { rewrite List.Forall_forall in Hq. apply Hq.
      apply (List.find_some _ _ Hfind). }
    rewrite updateQuantity_positive by lia.
    rewrite (addItem_in_stock P w Hstock). simpl. rewrite Hfind.
    f_equal. apply List.map_ext_in. intros line Hin.
    destruct (String.eqb_spec (id (product line)) (id P)) as [E|_]; [|reflexivity].
    rewrite (find_unique _ _ _ Hnd Hfind line Hin E). reflexivity.
  - split; [discriminate | intros _].
    rewrite updateQuantity_positive by lia. simpl.
    apply map_untouched. intros line Hin.
    apply (List.find_none _ _ Hfind), Hin.
Qed.

(** X13: a product that is out of stock is turned away at both places it
    can be added from, and differently: the product screen does nothing at
    all, the product card goes through [addItem] and leaves a validation
    report on the console.  Neither changes the cart state, and for a
    product in stock both are [addItem]. *)
Theorem out_of_stock_at_both_entry_points w (P : Product) :
  (inStock P = false ->
   ProductScreen.handleAddToCart P w = (Normal tt, w) /\
   state (after (ProductCard.handleAddToCart P) w) = state w /\
   exists entry,
     console (after (ProductCard.handleAddToCart P) w) = console w ++ [entry] /\
     reports VALIDATION entry) /\
  (inStock P = true ->
   ProductScreen.handleAddToCart P w = addItem P w /\
   ProductCard.handleAddToCart P w = addItem P w).
Proof.
  unfold ProductScreen.handleAddToCart, ProductCard.handleAddToCart.
  split; intros Hstock; rewrite Hstock.
  - split; [reflexivity|]. unfold after, addItem. rewrite Hstock. simpl.
    split; [reflexivity|]. eexists. split; [reflexivity|].
    destruct (__DEV__ w); reflexivity.
  - split; reflexivity.
Qed.

End Handlers.

(** * Further properties of persistence *)

Section Hydration.

Context {Disk : Type} `{!AsyncStorageAPI Disk} `{!JSONCodec (list CartItem)}.
Implicit Types (w : World Disk) (lines : list CartItem).

(** X14: whatever the device store and [JSON] do, reject or throw,
    [storage.setItem] and [storage.getItem] resolve to a value and the two
    effects of the provider return: nothing is thrown to the caller. *)
Theorem persistence_never_throws w :
  (forall (key : string) lines,
     exists b : bool, fst (storage_setItem key lines w) = Normal b) /\
  (forall key : string,
     exists saved : option (list CartItem),
       fst (storage_getItem key w) = Normal saved) /\
  fst (loadCart w) = Normal tt /\
  fst (saveCart w) = Normal tt.
Proof.
  split; [|split; [|split]].
  - intros key lines. apply storage_setItem_returns.
  - intros key. apply storage_getItem_returns.
  - apply loadCart_returns.
  - apply saveCart_returns.
Qed.

(** The report [storage.getItem] leaves when the read or the parse failed. *)
Lemma loadCart_cases w :
  let failed (e : JsError) :=
    after
      (logError
         (createError UNKNOWN (Some "Failed to read from storage"%string)
                      (Some e) None)
         (Some [("key", CStr STORAGE_KEYS.CART);
                ("operation", CStr "getItem")]%string))
      w in
  after loadCart w =
    match AsyncStorage_getItem STORAGE_KEYS.CART (disk w) with
    | Normal None => after (dispatch (SET_LOADING false)) w
    | Normal (Some text) =>
        match JSON_parse text with
        | Normal (Some payload) => after (dispatch (LOAD_CART payload)) w
        | Normal None => after (dispatch (SET_LOADING false)) w
        | Thrown e => after (dispatch (SET_LOADING false)) (failed e)
        end
    | Thrown e => after (dispatch (SET_LOADING false)) (failed e)
    end.
Proof.
  unfold after, loadCart, storage_getItem, tryCatch, mbind, mret, JS_bind,
    JS_ret, lift, await_AsyncStorage_getItem. simpl.
  destruct (AsyncStorage_getItem STORAGE_KEYS.CART (disk w)) as [[text|]|e];
    simpl; try reflexivity.
  destruct (JSON_parse text) as [[payload|]|e]; reflexivity.
Qed.

(** X15: when the read of the cart key fails or finds nothing, or finds a
    text on which [JSON.parse] throws or returns [null] or an array of cart
    lines (the texts the interface [JSONCodec] covers; a text that parses to
    any other value is outside it), the mount effect ends the loading phase
    and never writes to the device.  Either it adopts the snapshot that was
    read and parsed, and logs nothing; or it keeps lines and totals as they
    were, and then the console is untouched or has gained the single report
    "Failed to read from storage" of [storage.getItem] (the handler of
    [loadCart] itself, "Failed to load cart", never runs). *)
Theorem loadCart_outcomes w :
  disk (after loadCart w) = disk w /\
  isLoading (state (after loadCart w)) = false /\
  ((exists (text : string) (payload : list CartItem),
      AsyncStorage_getItem STORAGE_KEYS.CART (disk w) = Normal (Some text) /\
      JSON_parse text = Normal (Some payload) /\
      state (after loadCart w) = cartReducer (state w) (LOAD_CART payload) /\
      console (after loadCart w) = console w) \/
   (state (after loadCart w) = cartReducer (state w) (SET_LOADING false) /\
    (console (after loadCart w) = console w \/
     exists e : JsError,
       console (after loadCart w) =
         console
           (after
              (logError
                 (createError UNKNOWN (Some "Failed to read from storage"%string)
                              (Some e) None)
                 (Some [("key", CStr STORAGE_KEYS.CART);
                        ("operation", CStr "getItem")]%string))
              w)))).
Proof.
  rewrite (loadCart_cases w).
  destruct (AsyncStorage_getItem STORAGE_KEYS.CART (disk w)) as [[text|]|e] eqn:Hget.
  - destruct (JSON_parse text) as [[payload|]|e] eqn:Hparse.
    + repeat split. left. exists text, payload. repeat split; assumption.
    + repeat split. right. split; [reflexivity | left; reflexivity].
    + repeat split. right. split; [reflexivity | right; exists e; reflexivity].
  - repeat split. right. split; [reflexivity | left; reflexivity].
  - repeat split. right. split; [reflexivity | right; exists e; reflexivity].
Qed.

(** X16: a snapshot that cannot be parsed is not fatal and is not cleaned
    up: the store leaves the loading phase with the lines it had, one
    report of type [UNKNOWN_ERROR] is logged and the text stays on the
    device. *)
Theorem loadCart_corrupted_snapshot w (text : string) (e : JsError) :
  AsyncStorage_getItem STORAGE_KEYS.CART (disk w) = Normal (Some text) ->
  JSON_parse text = Thrown e ->
  state (after loadCart w) = cartReducer (state w) (SET_LOADING false) /\
  disk (after loadCart w) = disk w /\
  exists entry,
    console (after loadCart w) = console w ++ [entry] /\
    reports UNKNOWN entry.
Proof.
  intros Hget Hparse. rewrite (loadCart_cases w), Hget, Hparse.
  repeat split. unfold after. simpl.
  eexists. split; [reflexivity|]. destruct (__DEV__ w); reflexivity.
Qed.

(** X17: the save effect never changes the cart state; while the store is
    loading it does nothing at all, so a snapshot on the device is not
    overwritten before it was read; and when the lines cannot be serialized
    the device is left as it was and one report of type [UNKNOWN_ERROR] is
    logged. *)
Theorem saveCart_effects w :
  state (after saveCart w) = state w /\
  (isLoading (state w) = true -> saveCart w = (Normal tt, w)) /\
  (isLoading (state w) = false ->
   forall e : JsError,
     JSON_stringify (items (state w)) = Thrown e ->
     disk (after saveCart w) = disk w /\
     exists entry,
       console (after saveCart w) = console w ++ [entry] /\
       reports UNKNOWN entry).
Proof.
  split; [|split].
  - unfold after, saveCart.
    destruct (isLoading (state w)); simpl; [reflexivity|].
    unfold storage_setItem, tryCatch, mbind, mret, JS_bind, JS_ret, lift,
      await_AsyncStorage_setItem, logError.
    destruct (JSON_stringify (items (state w))) as [jsonValue|e]; simpl;
      [|reflexivity].
    destruct (AsyncStorage_setItem STORAGE_KEYS.CART jsonValue (disk w))
      as [[[]|e] d']; reflexivity.
  - intros Hloading. unfold saveCart. rewrite Hloading. reflexivity.
  - intros Hready e Hthrow. unfold after, saveCart. rewrite Hready. simpl.
    unfold storage_setItem, tryCatch, mbind, mret, JS_bind, JS_ret, lift,
      await_AsyncStorage_setItem, logError.
    rewrite Hthrow. simpl. split; [reflexivity|].
    eexists. split; [reflexivity|]. destruct (__DEV__ w); reflexivity.
Qed.

End Hydration.

(** ** Removing, clearing and reading several keys *)

Section StorageRemoval.

Context {Disk : Type} `{!AsyncStorageAPI Disk} `{!AsyncStorageMoreAPI Disk}
  `{!JSONCodec (list CartItem)}.
Implicit Types (w : World Disk).

Lemma storage_removeItem_true (key : string) w :
  fst (storage_removeItem key w) = Normal true ->
  exists d' : Disk,
    AsyncStorage_removeItem key (disk w) = (Normal tt, d') /\
    disk (after (storage_removeItem key) w) = d'.
Proof.
  unfold after, storage_removeItem, tryCatch, mbind, mret, JS_bind, JS_ret,
    await_AsyncStorage_removeItem, logError.
  destruct (AsyncStorage_removeItem key (disk w)) as [[[]|e] d'] eqn:Hremove;
    simpl; intros Hret; [eauto | discriminate].
Qed.

Lemma storage_clear_true w :
  fst (storage_clear w) = Normal true ->
  exists d' : Disk,
    AsyncStorage_clear (disk w) = (Normal tt, d') /\
    disk (after storage_clear w) = d'.
Proof.
  unfold after, storage_clear, tryCatch, mbind, mret, JS_bind, JS_ret,
    await_AsyncStorage_clear, logError.
  destruct (AsyncStorage_clear (disk w)) as [[[]|e] d'] eqn:Hclear;
    simpl; intros Hret; [eauto | discriminate].
Qed.

Lemma loadCart_no_snapshot (dev : bool) (d : Disk) :
  AsyncStorage_getItem STORAGE_KEYS.CART d = Normal None ->
  after loadCart (freshWorld dev d) =
    {| __DEV__ := dev; console := []; disk := d;
       state := {| items := []; totalItems := 0; totalPrice := 0%Q;
                   isLoading := false |} |}.
Proof. intros Hget. rewrite loadCart_cases. simpl. rewrite Hget. reflexivity. Qed.

(** X18: once [storage.removeItem] of the cart key, or [storage.clear], has
    resolved to [true], a fresh store that hydrates from the device starts
    with an empty cart, out of the loading phase, and logs nothing.  The
    device store is assumed to read a removed key, and any key of a cleared
    store, as [null]. *)
Theorem hydration_after_removal `{!AsyncStorageMoreLaws Disk} w (dev : bool) :
  (fst (storage_removeItem STORAGE_KEYS.CART w) = Normal true ->
   let w' := after loadCart
               (freshWorld dev (disk (after (storage_removeItem STORAGE_KEYS.CART) w))) in
   items (state w') = [] /\ isLoading (state w') = false /\ console w' = []) /\
  (fst (storage_clear w) = Normal true ->
   let w' := after loadCart (freshWorld dev (disk (after storage_clear w))) in
   items (state w') = [] /\ isLoading (state w') = false /\ console w' = []).
Proof.
  split; intros Htrue.
  - destruct (storage_removeItem_true _ _ Htrue) as (d' & Hremove & ->).
    simpl. rewrite (loadCart_no_snapshot dev d'); [repeat split|].
    apply (getItem_after_removeItem _ _ _ Hremove).
  - destruct (storage_clear_true _ Htrue) as (d' & Hclear & ->).
    simpl. rewrite (loadCart_no_snapshot dev d'); [repeat split|].
    apply (getItem_after_clear _ _ _ Hclear).
Qed.

End StorageRemoval.

Section MultiGet.

Context {Disk : Type} `{!AsyncStorageMoreAPI Disk} {T : Type} `{!JSONCodec T}.
Implicit Types (w : World Disk) (pairs : list (string * option string))
  (result : gmap string (option T)).

Lemma multiGet_forEach_throws pairs result :
  (exists (key : string) (c : ascii) (s : string) (e : JsError),
     In (key, Some (String c s)) pairs /\ JSON_parse (String c s) = Thrown e) ->
  exists e' : JsError, multiGet_forEach pairs result = Thrown e'.
Proof.
  revert result. induction pairs as [|[key0 value] rest IH];
    intros result (key & c & s & e & Hin & Hparse); [contradiction|].
  simpl. destruct Hin as [Heq|Hin].
  - injection Heq as -> ->. rewrite Hparse. eauto.
  - destruct value as [[|c0 s0]|].
    + apply IH. eauto 6.
    + destruct (JSON_parse (String c0 s0)) as [parsed|e0]; [|eauto].
      apply IH. eauto 6.
    + apply IH. eauto 6.
Qed.

Lemma multiGet_forEach_returns pairs result :
  (forall (key : string) (c : ascii) (s : string),
     In (key, Some (String c s)) pairs ->
     exists parsed, JSON_parse (String c s) = Normal parsed) ->
  exists result',
    multiGet_forEach pairs result = Normal result' /\
    forall key : string,
      is_Some (result' !! key) <->
      In key (List.map fst pairs) \/ is_Some (result !! key).
Proof.
  revert result. induction pairs as [|[key0 value] rest IH]; intros result Hparse.
  - exists result. split; [reflexivity|]. intros key. simpl. tauto.
  - assert (forall inserted : option T,
              exists result',
                multiGet_forEach rest (<[key0 := inserted]> result) = Normal result' /\
                forall key : string,
                  is_Some (result' !! key) <->
                  In key (List.map fst ((key0, value) :: rest)) \/
                  is_Some (result !! key)) as Hstep.
    { intros inserted.
      destruct (IH (<[key0 := inserted]> result)) as (result' & Hrun & Hdom).
      { intros key c s Hin. apply (Hparse key c s). right. exact Hin. }
      exists result'. split; [exact Hrun|].
      intros key. rewrite Hdom. simpl.
      destruct (decide (key0 = key)) as [->|Hne].
      - rewrite lookup_insert_eq. split; [intros _; left; left; reflexivity|].
        intros _. right. eauto.
      - rewrite lookup_insert_ne by exact Hne. tauto. }
    simpl. destruct value as [[|c0 s0]|]; try apply Hstep.
    destruct (Hparse key0 c0 s0 (or_introl eq_refl)) as [parsed ->].
    apply Hstep.
Qed.

(** X19: [storage.multiGet] never throws, and it is all or nothing.  When
    the text of one key cannot be parsed, the record returned is empty,
    the values of the other keys included, and one report of type
    [UNKNOWN_ERROR] is logged; when every text parses, nothing is logged
    and, provided none of the keys the device answered for is [__proto__],
    the record has an entry for exactly those keys. *)
Theorem storage_multiGet_all_or_nothing (keys : list string) w :
  (exists result, fst (storage_multiGet keys w) = Normal result) /\
  (forall pairs,
     AsyncStorage_multiGet keys (disk w) = Normal pairs ->
     ((exists (key : string) (c : ascii) (s : string) (e : JsError),
         In (key, Some (String c s)) pairs /\
         JSON_parse (String c s) = Thrown e) ->
      fst (storage_multiGet keys w) = Normal ∅ /\
      exists entry,
        console (after (storage_multiGet keys) w) = console w ++ [entry] /\
        reports UNKNOWN entry) /\
     ((forall (key : string) (c : ascii) (s : string),
         In (key, Some (String c s)) pairs ->
         exists parsed, JSON_parse (String c s) = Normal parsed) ->
      console (after (storage_multiGet keys) w) = console w /\
      (~ In "__proto__"%string (List.map fst pairs) ->
       exists result,
         fst (storage_multiGet keys w) = Normal result /\
         forall key : string,
           is_Some (result !! key) <-> In key (List.map fst pairs)))).
Proof.
  unfold after, storage_multiGet, tryCatch, mbind, mret, JS_bind, JS_ret,
    lift, await_AsyncStorage_multiGet, logError.
  split.
  - destruct (AsyncStorage_multiGet keys (disk w)) as [pairs|e]; simpl; [|eauto].
    destruct (multiGet_forEach pairs ∅); simpl; eauto.
  - intros pairs ->. simpl. split.
    + intros Hbad.
      destruct (multiGet_forEach_throws pairs ∅ Hbad) as [e' ->]. simpl.
      split; [reflexivity|]. eexists. split; [reflexivity|].
      destruct (__DEV__ w); reflexivity.
    + intros Hgood.
      destruct (multiGet_forEach_returns pairs ∅ Hgood) as (result & -> & Hdom).
      simpl. split; [reflexivity|]. intros _. exists result.
      split; [reflexivity|].
      intros key. rewrite Hdom, lookup_empty.
      split; [intros [Hin|[? Habs]]; [exact Hin | discriminate] | auto].
Qed.

End MultiGet.

(** * Properties of the error utilities *)

Section ErrorUtilities.

Lemma prefix_app (a s : string) :
  String.prefix a s = true <-> exists post, s = (a ++ post)%string.
Proof.
  revert s. induction a as [|c a IH]; intros s.
  - split; [intros _; exists s; reflexivity | intros _; destruct s; reflexivity].
  - destruct s as [|c' s]; simpl;
      [split; [discriminate | intros [post H]; discriminate]|].
    destruct (Ascii.ascii_dec c c') as [->|Hne].
    + rewrite IH. split; intros [post H]; exists post; [rewrite H | injection H]; auto.
    + split; [discriminate | intros [post H]; injection H; congruence].
Qed.

(** [includes] is the substring test. *)
Lemma includes_spec (searchString s : string) :
  errors.includes searchString s = true <->
  exists pre post, s = (pre ++ searchString ++ post)%string.
Proof.
  induction s as [|c s IH]; cbn [errors.includes].
  - rewrite Bool.orb_false_r, prefix_app. split.
    + intros [post H]. exists EmptyString, post. exact H.
    + intros (pre & post & H). destruct pre as [|c pre]; [eauto | discriminate].
  - rewrite Bool.orb_true_iff, prefix_app, IH. split.
    + intros [[post H] | (pre & post & H)].
      * exists EmptyString, post. exact H.
      * exists (String c pre), post. simpl. rewrite H. reflexivity.
    + intros (pre & post & H). destruct pre as [|c' pre]; simpl in H.
      * left. eauto.
      * right. injection H as _ H. eauto.
Qed.

Lemma ERROR_MESSAGES_not_empty (t : ErrorType) : ERROR_MESSAGES t <> EmptyString.
Proof. destruct t; discriminate. Qed.

Lemma createError_message (t : ErrorType) (message0 : option string)
    (originalError0 : option JsError) (statusCode0 : option Z) :
  message (createError t message0 originalError0 statusCode0) <> EmptyString /\
  userMessage (createError t message0 originalError0 statusCode0) =
    message (createError t message0 originalError0 statusCode0).
Proof.
  split; [|reflexivity]. simpl.
  destruct message0 as [[|c s]|]; simpl;
    [apply ERROR_MESSAGES_not_empty | discriminate | apply ERROR_MESSAGES_not_empty].
Qed.

(** X20: how [handleError] files the message of an [Error].  A message that
    contains "Network" or "fetch" becomes a [NETWORK_ERROR], even when it
    also mentions a timeout; otherwise one that contains "timeout" or
    "Timeout" becomes a [TIMEOUT]; in both cases the message shown is the
    stock text of the type and the original message is kept only as
    [originalError].  Any other message becomes an [UNKNOWN_ERROR] that
    shows the message itself. *)
Theorem handleError_files_messages (message0 : string) :
  let contains (word : string) :=
    exists pre post, message0 = (pre ++ word ++ post)%string in
  (contains "Network"%string \/ contains "fetch"%string ->
   errors.handleError (errors.CaughtError message0) =
     {| type := NETWORK; message := ERROR_MESSAGES NETWORK;
        userMessage := ERROR_MESSAGES NETWORK;
        originalError := Some message0; statusCode := None |}) /\
  (~ contains "Network"%string -> ~ contains "fetch"%string ->
   contains "timeout"%string \/ contains "Timeout"%string ->
   errors.handleError (errors.CaughtError message0) =
     {| type := TIMEOUT; message := ERROR_MESSAGES TIMEOUT;
        userMessage := ERROR_MESSAGES TIMEOUT;
        originalError := Some message0; statusCode := None |}) /\
  (~ contains "Network"%string -> ~ contains "fetch"%string ->
   ~ contains "timeout"%string -> ~ contains "Timeout"%string ->
   message0 <> EmptyString ->
   errors.handleError (errors.CaughtError message0) =
     {| type := UNKNOWN; message := message0; userMessage := message0;
        originalError := Some message0; statusCode := None |}).
Proof.
  intros contains. unfold errors.handleError.
  assert (forall word, contains word -> errors.includes word message0 = true)
    as Hyes by (intros word; apply includes_spec).
  assert (forall word, ~ contains word -> errors.includes word message0 = false)
    as Hno.
  { intros word Hnot. destruct (errors.includes word message0) eqn:E;
      [|reflexivity]. exfalso. apply Hnot, includes_spec, E. }
  split; [|split].
  - intros [H|H]; rewrite (Hyes _ H); [|rewrite Bool.orb_true_r]; reflexivity.
  - intros H1 H2 [H|H]; rewrite (Hno _ H1), (Hno _ H2), (Hyes _ H);
      [|rewrite Bool.orb_true_r]; reflexivity.
  - intros H1 H2 H3 H4 Hne.
    rewrite (Hno _ H1), (Hno _ H2), (Hno _ H3), (Hno _ H4). simpl.
    unfold createError. simpl.
    destruct message0; [contradiction | reflexivity].
Qed.

(** X21: [handleError] returns an [AppError] unchanged, so handling twice is
    handling once; for anything else it builds an error of type
    [NETWORK_ERROR], [TIMEOUT] or [UNKNOWN_ERROR] whose message is never
    empty and whose user message is the same text. *)
Theorem handleError_results (error : errors.Caught) :
  errors.handleError (errors.CaughtAppError (errors.handleError error)) =
    errors.handleError error /\
  ((forall appError, error <> errors.CaughtAppError appError) ->
   (type (errors.handleError error) = NETWORK \/
    type (errors.handleError error) = TIMEOUT \/
    type (errors.handleError error) = UNKNOWN) /\
   message (errors.handleError error) <> EmptyString /\
   userMessage (errors.handleError error) = message (errors.handleError error)).
Proof.
  split; [reflexivity|]. intros Hother.
  destruct error as [appError|message0|rendering]; unfold errors.handleError.
  - exfalso. exact (Hother appError eq_refl).
  - destruct (errors.includes "Network" message0 || errors.includes "fetch" message0).
    + split; [auto | apply createError_message].
    + destruct (errors.includes "timeout" message0
                || errors.includes "Timeout" message0);
        (split; [auto | apply createError_message]).
  - split; [auto | apply createError_message].
Qed.

End ErrorUtilities.

Section ErrorWrappers.

Context {Disk T : Type}.
Implicit Types (w : World Disk).

(** X22: the [tryCatch] of the error utilities never throws.  A resolved
    [fn] gives [(result, null)] and logs nothing.  A rejected [fn] gives
    [(null, error)] and logs one report of that error's type; the error is
    the caught [AppError] itself, or else an error of the type asked for
    whose message is the stock text of that type: the message [fn] rejected
    with is kept only as [originalError]. *)
Theorem errors_tryCatch_outcomes
    (fn : World Disk -> (T + errors.Caught) * World Disk)
    (errorType : ErrorType) w :
  (forall (result : T) (w' : World Disk),
     fn w = (inl result, w') ->
     errors.tryCatch fn errorType w = (Normal (Some result, None), w')) /\
  (forall (error : errors.Caught) (w' : World Disk),
     fn w = (inr error, w') ->
     exists (appError : AppError) (entry : ConsoleEntry),
       fst (errors.tryCatch fn errorType w) = Normal (None, Some appError) /\
       console (after (errors.tryCatch fn errorType) w) = console w' ++ [entry] /\
       state (after (errors.tryCatch fn errorType) w) = state w' /\
       reports (type appError) entry /\
       (forall caught, error = errors.CaughtAppError caught -> appError = caught) /\
       ((forall caught, error <> errors.CaughtAppError caught) ->
        type appError = errorType /\
        message appError = ERROR_MESSAGES errorType /\
        originalError appError = Some (errors.asError error))).
Proof.
  unfold after, errors.tryCatch. split.
  - intros result w' ->. reflexivity.
  - intros error w' ->. simpl.
    eexists. eexists. split; [reflexivity|]. split; [reflexivity|].
    split; [reflexivity|]. split.
    + destruct (__DEV__ w'); simpl; [reflexivity|].
      destruct error as [[[] ? ? ? ?]| |]; try destruct errorType; reflexivity.
    + split.
      * intros caught ->. reflexivity.
      * intros Hother. destruct error as [caught| |];
          [exfalso; exact (Hother caught eq_refl) | |]; repeat split.
Qed.

End ErrorWrappers.

Section Retry.

Context {Disk T : Type}.
Implicit Types (w : World Disk).

(** What the caller of [retry] catches when every attempt failed. *)
Lemma retry_failed_message (maxRetries : Z) (lastError : option JsError) w :
  errors.retry_failed (T := T) maxRetries lastError w =
    (Thrown ("Failed after " ++ pretty maxRetries ++ " attempts")%string, w).
Proof. reflexivity. Qed.

Lemma retry_loop_throws (sleep : Z -> JS Disk unit) (fn : JS Disk T)
    (maxRetries delayMs : Z) :
  (forall (ms : Z) w1, exists w2, sleep ms w1 = (Normal tt, w2)) ->
  forall (fuel : nat) (attempt : Z) (lastError : option JsError) w
         (e : JsError) (w' : World Disk),
    errors.retry_loop sleep fn maxRetries delayMs fuel attempt lastError w =
      (Thrown e, w') ->
    e = ("Failed after " ++ pretty maxRetries ++ " attempts")%string.
Proof.
  intros Hsleep. induction fuel as [|fuel IH]; intros attempt lastError w e w';
    cbn [errors.retry_loop].
  - rewrite retry_failed_message. congruence.
  - destruct (attempt <=? maxRetries);
      [|rewrite retry_failed_message; congruence].
    destruct (fn w) as [[result|error] w1]; [discriminate|].
    destruct (attempt <? maxRetries); [|apply IH].
    destruct (Hsleep (delayMs * attempt) w1) as [w2 ->]. apply IH.
Qed.

(** X23: [retry] with a number of attempts that is 0 or negative never runs
    the operation and throws at once; with at least one attempt, an
    operation that succeeds at its first run is run once, without any
    sleep, and its result is returned; and whatever [retry] throws (the
    sleeps themselves not failing) has the message "Failed after N
    attempts", never the message the operation failed with. *)
Theorem retry_outcomes (sleep : Z -> JS Disk unit) (fn : JS Disk T)
    (maxRetries delayMs : Z) w :
  (maxRetries <= 0 ->
   errors.retry sleep fn maxRetries delayMs w =
     (Thrown ("Failed after " ++ pretty maxRetries ++ " attempts")%string, w)) /\
  (1 <= maxRetries ->
   forall (result : T) (w' : World Disk),
     fn w = (Normal result, w') ->
     errors.retry sleep fn maxRetries delayMs w = (Normal result, w')) /\
  ((forall (ms : Z) w1, exists w2, sleep ms w1 = (Normal tt, w2)) ->
   forall (e : JsError) (w' : World Disk),
     errors.retry sleep fn maxRetries delayMs w = (Thrown e, w') ->
     e = ("Failed after " ++ pretty maxRetries ++ " attempts")%string).
Proof.
  unfold errors.retry. split; [|split].
  - intros Hn. replace (Z.to_nat maxRetries) with O by lia. reflexivity.
  - intros Hn result w' Hfn.
    destruct (Z.to_nat maxRetries) as [|fuel] eqn:Efuel; [lia|].
    cbn [errors.retry_loop].
    assert ((1 <=? maxRetries) = true) as -> by (apply Z.leb_le; lia).
    rewrite Hfn. reflexivity.
  - intros Hsleep e w'. apply retry_loop_throws, Hsleep.
Qed.

End Retry.

Lemma retry_loop_schedule (maxRetries delayMs : Z) (fuel : nat) (attempt : Z)
    (lastError : option JsError) (w : World (list RetryJournal.Event)) :
  attempt + Z.of_nat fuel = maxRetries + 1 ->
  errors.retry_loop (T := unit) RetryJournal.sleep RetryJournal.failing
    maxRetries delayMs fuel attempt lastError w =
    (Thrown ("Failed after " ++ pretty maxRetries ++ " attempts")%string,
     {| __DEV__ := __DEV__ w; console := console w;
        disk := disk w ++ RetryJournal.schedule fuel attempt delayMs;
        state := state w |}).
Proof.
  revert attempt lastError w.
  induction fuel as [|fuel IH]; intros attempt lastError w Hfuel;
    cbn [errors.retry_loop].
  - rewrite retry_failed_message. simpl. rewrite List.app_nil_r.
    destruct w; reflexivity.
  - assert ((attempt <=? maxRetries) = true) as -> by (apply Z.leb_le; lia).
    unfold RetryJournal.failing at 1. cbv beta iota.
    destruct fuel as [|fuel'].
    + assert ((attempt <? maxRetries) = false) as -> by (apply Z.ltb_ge; lia).
      cbn [errors.retry_loop]. rewrite retry_failed_message. reflexivity.
    + assert ((attempt <? maxRetries) = true) as -> by (apply Z.ltb_lt; lia).
      unfold RetryJournal.sleep at 1. cbv beta iota.
      rewrite IH by lia. cbn [__DEV__ console disk state RetryJournal.schedule].
      rewrite <- !List.app_assoc. reflexivity.
Qed.

(** X24: the timetable of [retry] when every attempt fails, read off a
    journal kept by the operation and by the sleeps: the operation runs
    [maxRetries] times, attempt number [k] is followed by a sleep of
    [delayMs * k], and no sleep follows the last attempt. *)
Theorem retry_backoff_schedule (maxRetries delayMs : Z)
    (w : World (list RetryJournal.Event)) :
  errors.retry (T := unit) RetryJournal.sleep RetryJournal.failing
    maxRetries delayMs w =
    (Thrown ("Failed after " ++ pretty maxRetries ++ " attempts")%string,
     {| __DEV__ := __DEV__ w; console := console w;
        disk := disk w ++ RetryJournal.schedule (Z.to_nat maxRetries) 1 delayMs;
        state := state w |}).
Proof.
  unfold errors.retry.
  destruct (Z.le_gt_cases maxRetries 0) as [Hn|Hn].
  - replace (Z.to_nat maxRetries) with O by lia.
    cbn [errors.retry_loop]. rewrite retry_failed_message. simpl.
    rewrite List.app_nil_r. destruct w; reflexivity.
  - apply retry_loop_schedule. lia.
Qed.

(** * Properties of the card number check *)

Section Luhn.

Import validation.

Implicit Types (c : ascii) (cs : list ascii) (s pre post : string).

Lemma luhnRound_weight (sum : Z) (isEven : bool) c :
  luhnRound (sum, isEven) c = (sum + weight isEven (parseInt c), negb isEven).
Proof. reflexivity. Qed.

Lemma isDigit_parseInt c : isDigit c = true -> 0 <= parseInt c <= 9.
Proof.
  unfold isDigit, parseInt. intros H.
  apply Bool.andb_true_iff in H as [H1 H2].
  apply N.leb_le in H1, H2. lia.
Qed.

Lemma parseInt_inj c c' :
  isDigit c = true -> isDigit c' = true -> parseInt c = parseInt c' -> c = c'.
Proof.
  unfold parseInt. intros _ _ H.
  assert (N_of_ascii c = N_of_ascii c') as E by lia.
  rewrite <- (ascii_N_embedding c), <- (ascii_N_embedding c'), E. reflexivity.
Qed.

Lemma weight_range (isEven : bool) (d : Z) :
  0 <= d <= 9 -> 0 <= weight isEven d <= 9.
Proof.
  unfold weight. intros Hd. destruct isEven; [|lia].
  destruct (Z.gtb_spec (d * 2) 9); lia.
Qed.

Lemma weight_inj (isEven : bool) (d d' : Z) :
  0 <= d <= 9 -> 0 <= d' <= 9 -> weight isEven d = weight isEven d' -> d = d'.
Proof.
  unfold weight. intros Hd Hd'. destruct isEven; [|lia].
  destruct (Z.gtb_spec (d * 2) 9); destruct (Z.gtb_spec (d' * 2) 9); lia.
Qed.

Lemma luhnSum_luhnFrom s :
  luhnSum s = fst (luhnFrom (0, false) (list_ascii_of_string s)).
Proof.
  unfold luhnSum, luhnFrom.
  rewrite <- (List.rev_involutive (list_ascii_of_string s)) at 2.
  rewrite List.fold_left_rev_right. reflexivity.
Qed.

Lemma luhnFrom_shift (sum : Z) (isEven : bool) cs :
  luhnFrom (sum, isEven) cs =
    (sum + fst (luhnFrom (0, isEven) cs), snd (luhnFrom (0, isEven) cs)).
Proof.
  induction cs as [|c cs IH].
  - simpl. f_equal. lia.
  - unfold luhnFrom in *. cbn [fold_right]. rewrite IH.
    destruct (fold_right (fun c0 acc' => luhnRound acc' c0) (0, isEven) cs)
      as [sum' isEven'].
    cbn [fst snd]. rewrite !luhnRound_weight. cbn [fst snd]. f_equal. lia.
Qed.

Lemma luhnFrom_parity (sum sum' : Z) (isEven : bool) cs :
  snd (luhnFrom (sum, isEven) cs) = snd (luhnFrom (sum', isEven) cs).
Proof. rewrite (luhnFrom_shift sum), (luhnFrom_shift sum'). reflexivity. Qed.

(** The sum of a number, split at one of its digits: what the digits after
    it add, what it adds at its place, what the digits before it add. *)
Lemma luhnFrom_split cs c cs' :
  exists (before after0 : Z) (isEven : bool),
    forall c0,
      fst (luhnFrom (0, false) (cs ++ c0 :: cs')) =
        after0 + weight isEven (parseInt c0) + before.
Proof.
  destruct (luhnFrom (0, false) cs') as [after0 isEven] eqn:Eafter.
  exists (fst (luhnFrom (0, negb isEven) cs)), after0, isEven.
  intros c0. unfold luhnFrom in *. rewrite List.fold_right_app.
  cbn [fold_right]. rewrite Eafter, luhnRound_weight.
  fold (luhnFrom (after0 + weight isEven (parseInt c0), negb isEven) cs).
  rewrite luhnFrom_shift. reflexivity.
Qed.

Lemma removeNonDigits_app pre post :
  removeNonDigits (pre ++ post) = (removeNonDigits pre ++ removeNonDigits post)%string.
Proof.
  induction pre as [|c pre IH]; simpl; [reflexivity|].
  destruct (isDigit c); simpl; rewrite IH; reflexivity.
Qed.

Lemma list_ascii_of_string_app (a b : string) :
  list_ascii_of_string (a ++ b) =
    (list_ascii_of_string a ++ list_ascii_of_string b)%list.
Proof. induction a as [|c a IH]; simpl; [reflexivity | rewrite IH; reflexivity]. Qed.

Lemma length_app_string (a b : string) :
  String.length (a ++ b) = (String.length a + String.length b)%nat.
Proof. induction a as [|c a IH]; simpl; [reflexivity | rewrite IH; reflexivity]. Qed.

(** The cleaned text of a number in which one digit is singled out. *)
Lemma cleaned_with_digit pre c post :
  isDigit c = true ->
  removeNonDigits (pre ++ String c post) =
    (removeNonDigits pre ++ String c (removeNonDigits post))%string.
Proof.
  intros Hc. rewrite removeNonDigits_app. simpl. rewrite Hc. reflexivity.
Qed.

Lemma creditCard_valid_iff s :
  isValid (creditCard s) = true <->
  (13 <= String.length (removeNonDigits s) <= 19)%nat /\
  luhnSum (removeNonDigits s) mod 10 = 0.
Proof.
  unfold creditCard.
  destruct (removeNonDigits s) as [|c0 s0] eqn:E.
  - simpl. split; [discriminate | intros [[H _] _]; lia].
  - destruct (Nat.ltb_spec (String.length (String c0 s0)) 13) as [Hlo|Hlo].
    + cbn [orb isValid]. split; [discriminate | intros [[H _] _]; lia].
    + destruct (Nat.ltb_spec 19 (String.length (String c0 s0))) as [Hhi|Hhi].
      * cbn [orb isValid]. split; [discriminate | intros [[_ H] _]; lia].
      * cbn [orb].
        destruct (Z.eqb_spec (luhnSum (String c0 s0) mod 10) 0) as [Hz|Hz];
          cbn [negb isValid].
        -- split; [intros _ | reflexivity]. split; [lia | exact Hz].
        -- split; [discriminate | intros [_ H]; contradiction].
Qed.

(** X25: the card number check catches every single wrong digit.  If a text
    passes the check, the text obtained by replacing one of its digits by a
    different digit fails it, with the error "Invalid card number"; the
    characters that are not digits play no part. *)
Theorem creditCard_detects_one_wrong_digit pre post c c' :
  isDigit c = true -> isDigit c' = true -> c <> c' ->
  isValid (creditCard (pre ++ String c post)) = true ->
  creditCard (pre ++ String c' post) =
    {| isValid := false; error := Some "Invalid card number"%string |}.
Proof.
  intros Hc Hc' Hne Hvalid.
  apply creditCard_valid_iff in Hvalid as [Hlen Hsum].
  rewrite (cleaned_with_digit pre c post Hc) in Hlen, Hsum.
  unfold creditCard. rewrite (cleaned_with_digit pre c' post Hc').
  destruct (removeNonDigits pre ++ String c' (removeNonDigits post))%string
    as [|c0 s0] eqn:E.
  { destruct (removeNonDigits pre); discriminate. }
  rewrite <- E. clear E c0 s0.
  rewrite !length_app_string in *. simpl String.length in *.
  destruct (Nat.ltb_spec (String.length (removeNonDigits pre)
                          + S (String.length (removeNonDigits post))) 13);
    [lia|].
  destruct (Nat.ltb_spec 19 (String.length (removeNonDigits pre)
                             + S (String.length (removeNonDigits post))));
    [lia|].
  cbn [orb].
  rewrite luhnSum_luhnFrom, list_ascii_of_string_app in Hsum |- *.
  simpl list_ascii_of_string in *.
  destruct (luhnFrom_split (list_ascii_of_string (removeNonDigits pre)) c
              (list_ascii_of_string (removeNonDigits post)))
    as (before & after0 & isEven & Hsplit).
  rewrite Hsplit in Hsum. rewrite Hsplit.
  pose proof (weight_range isEven _ (isDigit_parseInt c Hc)) as Hw.
  pose proof (weight_range isEven _ (isDigit_parseInt c' Hc')) as Hw'.
  assert (weight isEven (parseInt c) <> weight isEven (parseInt c')) as Hdiff.
  { intros Heq. apply Hne, parseInt_inj; try assumption.
    apply (weight_inj isEven); auto using isDigit_parseInt. }
  destruct (Z.eqb_spec ((after0 + weight isEven (parseInt c') + before) mod 10) 0)
    as [Hz|Hz]; [|reflexivity].
  exfalso.
  apply Z.mod_divide in Hsum, Hz; try lia.
  destruct Hsum as [k Hk]. destruct Hz as [k' Hk']. lia.
Qed.

End Luhn.

Section LuhnCheckDigit.

Import validation.

Lemma luhnSum_last_digit (body : string) :
  exists before : Z,
    forall c, isDigit c = true ->
      luhnSum (removeNonDigits (body ++ String c EmptyString)) =
        parseInt c + before.
Proof.
  destruct (luhnFrom_split (list_ascii_of_string (removeNonDigits body))
              "0"%char []) as (before & after0 & isEven & Hsplit).
  exists (after0 + before + (weight isEven 0 - 0)).
  intros c Hc. rewrite (cleaned_with_digit body c EmptyString Hc).
  rewrite luhnSum_luhnFrom, list_ascii_of_string_app. simpl list_ascii_of_string.
  pose proof (Hsplit c) as Hc0. pose proof (Hsplit "0"%char) as H0.
  unfold luhnFrom in Hc0, H0 |- *.
  rewrite List.fold_right_app in Hc0, H0 |- *. cbn [fold_right] in Hc0, H0 |- *.
  rewrite luhnRound_weight in Hc0, H0 |- *.
  fold (luhnFrom (0 + weight false (parseInt c), negb false)
          (list_ascii_of_string (removeNonDigits body))) in Hc0 |- *.
  fold (luhnFrom (0 + weight false (parseInt "0"), negb false)
          (list_ascii_of_string (removeNonDigits body))) in H0.
  rewrite luhnFrom_shift in Hc0, H0 |- *. cbn [fst] in Hc0, H0 |- *.
  change (parseInt "0") with 0 in H0. unfold weight at 1 in H0.
  unfold weight at 1. unfold weight at 1 in Hc0. lia.
Qed.

(** X26: any text with 12 to 18 digits can be completed by exactly one
    final digit into a text that passes the card number check. *)
Theorem creditCard_check_digit (body : string) :
  (12 <= String.length (removeNonDigits body) <= 18)%nat ->
  exists c,
    isDigit c = true /\
    isValid (creditCard (body ++ String c EmptyString)) = true /\
    forall c',
      isDigit c' = true ->
      isValid (creditCard (body ++ String c' EmptyString)) = true ->
      c' = c.
Proof.
  intros Hlen. destruct (luhnSum_last_digit body) as [before Hsum].
  assert (forall c, isDigit c = true ->
            (isValid (creditCard (body ++ String c EmptyString)) = true <->
             (parseInt c + before) mod 10 = 0)) as Hvalid.
  { intros c Hc. rewrite creditCard_valid_iff, (Hsum c Hc).
    rewrite (cleaned_with_digit body c EmptyString Hc), length_app_string.
    simpl String.length. split; [intros [_ H]; exact H | intros H].
    split; [lia | exact H]. }
  set (k := (- before) mod 10).
  assert (0 <= k < 10) as Hk by (apply Z.mod_pos_bound; lia).
  set (c := ascii_of_N (Z.to_N (48 + k))).
  assert (N_of_ascii c = Z.to_N (48 + k)) as Hcode
    by (apply N_ascii_embedding; lia).
  assert (isDigit c = true) as Hc.
  { unfold isDigit. rewrite Hcode. apply Bool.andb_true_iff.
    split; apply N.leb_le; lia. }
  assert (parseInt c = k) as Hparse by (unfold parseInt; rewrite Hcode; lia).
  exists c. split; [exact Hc|]. split.
  - apply (Hvalid c Hc). rewrite Hparse. subst k.
    rewrite Z.add_mod_idemp_l by lia.
    replace (- before + before) with 0 by lia. reflexivity.
  - intros c' Hc' Hvalid'. apply (Hvalid c' Hc') in Hvalid'.
    apply parseInt_inj; try assumption. rewrite Hparse.
    pose proof (isDigit_parseInt c' Hc') as Hrange.
    apply Z.mod_divide in Hvalid'; [|lia]. destruct Hvalid' as [m Hm].
    subst k. pose proof (Z.div_mod (- before) 10 ltac:(lia)) as Hdiv. lia.
Qed.

End LuhnCheckDigit.

(** * The further properties at concrete inputs *)

Lemma updateQuantity_last_write_wins_witness :
  let w := after (addItem products.product_1) (freshWorld true tt) in
  state (after (updateQuantity "1" 2) (after (updateQuantity "1" 7) w)) =
    state (after (updateQuantity "1" 2) w).
Proof.
  intros w. apply (updateQuantity_last_write_wins w "1" 7 2); lia.
Defined.

Lemma ProductScreen_handleIncrement_vs_addItem_witness :
  let w := after (addItem products.product_1) (freshWorld true tt) in
  (isInCart (state w) "1" = true ->
   state (after (ProductScreen.handleIncrement products.product_1) w) =
     state (after (addItem products.product_1) w)) /\
  (isInCart (state w) "1" = false ->
   items (state (after (ProductScreen.handleIncrement products.product_1) w)) =
     items (state w)).
Proof.
  intros w.
  apply (ProductScreen_handleIncrement_vs_addItem w products.product_1);
    [|reflexivity].
  split.
  - repeat constructor. simpl. lia.
  - repeat constructor. simpl. intros H. inversion H.
Defined.

(** A device whose cart key holds text that is not JSON. *)
Lemma loadCart_corrupted_snapshot_witness :
  let d : gmap string string := {[ STORAGE_KEYS.CART := "not json"%string ]} in
  let w := freshWorld false d in
  state (after (@loadCart _ Device.memory Device.JSON_lines) w) =
    cartReducer (state w) (SET_LOADING false) /\
  disk (after (@loadCart _ Device.memory Device.JSON_lines) w) = disk w /\
  exists entry,
    console (after (@loadCart _ Device.memory Device.JSON_lines) w) =
      console w ++ [entry] /\
    reports UNKNOWN entry.
Proof.
  intros d w.
  apply (@loadCart_corrupted_snapshot _ Device.memory Device.JSON_lines w
           "not json" "SyntaxError: JSON Parse error");
    vm_compute; reflexivity.
Defined.

Lemma memory_more_laws :
  @AsyncStorageMoreLaws (gmap string string) Device.memory DeviceMore.memory.
Proof.
  constructor; intros key d d' H; simpl in *; injection H as <-;
    [rewrite lookup_delete_eq | rewrite lookup_empty]; reflexivity.
Qed.

(** A device on which the lines were saved, then removed or cleared. *)
Lemma hydration_after_removal_witness :
  let lines := [ {| product := products.product_1; quantity := 2 |} ] in
  let w : World (gmap string string) :=
    after (@saveCart _ Device.memory Device.JSON_lines)
          (after (dispatch (LOAD_CART lines)) (freshWorld false ∅)) in
  (fst (@storage_removeItem _ DeviceMore.memory STORAGE_KEYS.CART w) = Normal true ->
   let w' :=
     after (@loadCart _ Device.memory Device.JSON_lines)
       (freshWorld true
          (disk (after (@storage_removeItem _ DeviceMore.memory STORAGE_KEYS.CART) w))) in
   items (state w') = [] /\ isLoading (state w') = false /\ console w' = []) /\
  (fst (@storage_clear _ DeviceMore.memory w) = Normal true ->
   let w' :=
     after (@loadCart _ Device.memory Device.JSON_lines)
       (freshWorld true (disk (after (@storage_clear _ DeviceMore.memory) w))) in
   items (state w') = [] /\ isLoading (state w') = false /\ console w' = []).
Proof.
  intros lines w.
  apply (@hydration_after_removal _ Device.memory DeviceMore.memory
           Device.JSON_lines memory_more_laws w true).
Defined.

(** The test number 4111 1111 1111 1111, and the same with its last digit
    changed. *)
Lemma creditCard_detects_one_wrong_digit_witness :
  validation.isValid (validation.creditCard "4111 1111 1111 1111") = true /\
  validation.creditCard "4111 1111 1111 1112" =
    {| validation.isValid := false;
       validation.error := Some "Invalid card number"%string |}.
Proof.
  split; [vm_compute; reflexivity|].
  apply (creditCard_detects_one_wrong_digit "4111 1111 1111 111" "" "1" "2");
    try (vm_compute; reflexivity). discriminate.
Defined.

Lemma creditCard_check_digit_witness :
  exists c,
    validation.isDigit c = true /\
    validation.isValid
      (validation.creditCard ("4111 1111 1111 111" ++ String c EmptyString)) = true /\
    forall c',
      validation.isDigit c' = true ->
      validation.isValid
        (validation.creditCard ("4111 1111 1111 111" ++ String c' EmptyString)) = true ->
      c' = c.
Proof.
  apply (creditCard_check_digit "4111 1111 1111 111"). vm_compute. split; lia.
Defined.
